(** * Vector search demo (main.py): orchestration over an embedding provider
      and a vector store

    A shallow embedding of [src/main.py].  The two client handles of the
    script ([client], the embedding provider, and [qdrant_client], the vector
    store), [time.sleep] and the few [os] / [shutil] calls are external
    collaborators: they are modelled as arbitrary handlers over an abstract
    world state [W], so that every theorem holds whatever the services answer.
    Every function of the script is a computation that threads the world,
    may raise, and records the calls it issues in a trace. *)

From Stdlib Require Import ZArith List Ascii String Floats.
From stdpp Require Import gmap strings list fin_maps.

Open Scope string_scope.
Open Scope Z_scope.
Open Scope list_scope.

(** ** Python values *)

(** The values that flow through the script's dictionaries ([Dict[str, Any]]):
    record fields, payload fields and result fields. *)
Inductive pyval : Type :=
| VNone
| VInt (n : Z)
| VFloat (f : float)
| VStr (s : string).

(** Exceptions, all of them instances of Python's [Exception] (the class every
    [except Exception] clause of the script catches). *)
Inductive exn : Type :=
| KeyError (key : string)              (* d[key] on a dict without the key *)
| IndexError                           (* l[0] on an empty list *)
| TypeError                            (* format(None, ".4f") *)
| ValueError                           (* format("text", ".4f") *)
| OverflowError                        (* time.sleep(secs), secs too large *)
| VerifyFailed (collection_name : string)
    (* Exception(f"Failed to verify collection '{collection_name}' creation") *)
| ServiceError (detail : string).      (* anything raised by a collaborator *)

Inductive outcome (A : Type) : Type :=
| Return (a : A)
| Raise (e : exn).
Arguments Return {A} a.
Arguments Raise {A} e.

(** ** Data exchanged with the collaborators *)

Abbreviation vector := (list float).

(* openai: response.data[i].embedding *)
Record Embedding := { embedding : vector }.
Record CreateEmbeddingResponse := { data : list Embedding }.

(* qdrant_client.http.models *)
Inductive Distance := COSINE | EUCLID | DOT | MANHATTAN.
Record VectorParams := { size : Z; distance : Distance }.
Record CollectionDescription := { name : string }.
Record CollectionsResponse := { collections : list CollectionDescription }.
Record PointStruct := {
  ps_id : Z;
  ps_vector : gmap string vector;
  ps_payload : gmap string pyval
}.
Record ScoredPoint := {
  sp_id : Z;
  sp_score : float;
  sp_payload : option (gmap string pyval);
  sp_vector : option (gmap string vector)
}.

(** ** Console output *)

(** One constructor per [print] of the script; the arguments are the values
    interpolated into its f-string. *)
Inductive message : Type :=
| MsgEmbeddingError (e : exn)
| MsgDeleting (collection_name : string) (attempt_no max_retries : Z)
| MsgCheckWarning (e : exn)
| MsgCreating (collection_name : string) (vector_size : Z)
| MsgCreated (collection_name : string)
| MsgSetupFailed (max_retries : Z)
| MsgErrorDetails (e : exn)
| MsgCurrentCollections (names : list string)
| MsgCouldNotList (e : exn)
| MsgForceCleanup
| MsgRemovingDir (data_dir : string)
| MsgDirRemoved
| MsgCleanupFailed (e : exn)
| MsgRetrying (attempt_no : Z) (e : exn) (delay : Z)
| MsgUploaded (count : nat) (collection_name : string)
| MsgGenerating
| MsgSettingUp (count : nat) (dim : nat)
| MsgPerforming
| MsgQuery (query_text : string)
| MsgResultsHeader
| MsgRule
| MsgResult (rank : nat) (score : pyval)
| MsgResultId (id : pyval)
| MsgResultLyric (lyric : pyval)
| MsgError (e : exn)
| MsgTipsHeader
| MsgTipModel
| MsgTipConnection
| MsgTipCollection (collection_name : string).

(** ** Trace of interactions *)

Inductive event : Type :=
| EEmbeddingsCreate (input : pyval) (model : string)
| EGetCollections
| EDeleteCollection (collection_name : string)
| ECreateCollection (collection_name : string)
                    (vectors_config : gmap string VectorParams)
| EUpsert (collection_name : string) (points : list PointStruct) (wait : bool)
| ESearch (collection_name : string) (query_vector : string * vector)
          (limit : Z) (with_vectors with_payload : bool)
| ESleep (seconds : Z)
| EGetcwd
| EPathExists (path : string)
| ERmtree (path : string)
| EPrint (m : message).

(** ** The collaborators *)

(** What the script calls on its two client handles and on the operating
    system.  Each handler reads and updates the world; the fallible ones
    answer with an [outcome]. *)
Record Services (W : Type) := {
  embeddings_create :
    pyval -> string -> W -> outcome CreateEmbeddingResponse * W;
  get_collections : W -> outcome CollectionsResponse * W;
  delete_collection : string -> W -> outcome unit * W;
  create_collection :
    string -> gmap string VectorParams -> W -> outcome unit * W;
  upsert : string -> list PointStruct -> bool -> W -> outcome unit * W;
  search :
    string -> string * vector -> Z -> bool -> bool -> W ->
    outcome (list ScoredPoint) * W;
  sleep : Z -> W -> W;
  getcwd : W -> outcome string * W;
  path_exists : string -> W -> bool * W;
  rmtree : string -> W -> outcome unit * W
}.
Arguments embeddings_create {W}.
Arguments get_collections {W}.
Arguments delete_collection {W}.
Arguments create_collection {W}.
Arguments upsert {W}.
Arguments search {W}.
Arguments sleep {W}.
Arguments getcwd {W}.
Arguments path_exists {W}.
Arguments rmtree {W}.

(** ** The computation monad: world passing, exceptions, trace *)

Definition M (W A : Type) : Type := W -> outcome A * W * list event.

Definition ret {W A} (a : A) : M W A := fun w => (Return a, w, []).

Definition raise {W A} (e : exn) : M W A := fun w => (Raise e, w, []).

Definition bind {W A B} (m : M W A) (k : A -> M W B) : M W B :=
  fun w =>
    match m w with
    | (Return a, w1, t1) =>
        match k a w1 with
        | (r, w2, t2) => (r, w2, t1 ++ t2)
        end
    | (Raise e, w1, t1) => (Raise e, w1, t1)
    end.

(** [try: m  except Exception as e: h e] *)
Definition try_except {W A} (m : M W A) (h : exn -> M W A) : M W A :=
  fun w =>
    match m w with
    | (Return a, w1, t1) => (Return a, w1, t1)
    | (Raise e, w1, t1) =>
        match h e w1 with
        | (r, w2, t2) => (r, w2, t1 ++ t2)
        end
    end.

(** Lifting of a pure, possibly failing, evaluation. *)
Definition lift {W A} (r : outcome A) : M W A := fun w => (r, w, []).

(** A call to a fallible collaborator, recorded as [ev]. *)
Definition call {W A} (ev : event) (h : W -> outcome A * W) : M W A :=
  fun w => match h w with (r, w1) => (r, w1, [ev]) end.

(** A call to a collaborator that cannot raise. *)
Definition call_total {W A} (ev : event) (h : W -> A * W) : M W A :=
  fun w => match h w with (a, w1) => (Return a, w1, [ev]) end.

Definition print {W} (m : message) : M W unit :=
  fun w => (Return tt, w, [EPrint m]).

Notation "'let*' x := m 'in' k" := (bind m (fun x => k))
  (at level 10, x name, m at level 100, k at level 200, only parsing).
Notation "m ;; k" := (bind m (fun _ => k))
  (at level 100, k at level 200, right associativity, only parsing).

Definition result_of {W A} (r : outcome A * W * list event) : outcome A :=
  fst (fst r).
Definition world_of {W A} (r : outcome A * W * list event) : W :=
  snd (fst r).
Definition trace_of {W A} (r : outcome A * W * list event) : list event :=
  snd r.

(** ** Python dictionaries and lists *)

(** [d[key]] *)
Definition getitem (d : gmap string pyval) (key : string) : outcome pyval :=
  match d !! key with
  | Some v => Return v
  | None => Raise (KeyError key)
  end.

(** [d.get(key, default)] *)
Definition dict_get (d : gmap string pyval) (key : string) (default : pyval)
  : pyval :=
  match d !! key with
  | Some v => v
  | None => default
  end.

(** [l[0]] *)
Definition first_item {A} (l : list A) : outcome A :=
  match l with
  | x :: _ => Return x
  | [] => Raise IndexError
  end.

(** [x in l] for a list of strings *)
Definition contains (l : list string) (x : string) : bool :=
  existsb (String.eqb x) l.

(** [posixpath.join(a, *p)] *)
Definition starts_with_sep (s : string) : bool :=
  match s with
  | String c _ => Ascii.eqb c "/"%char
  | EmptyString => false
  end.

Fixpoint ends_with_sep (s : string) : bool :=
  match s with
  | EmptyString => false
  | String c EmptyString => Ascii.eqb c "/"%char
  | String _ rest => ends_with_sep rest
  end.

Definition join_component (path b : string) : string :=
  if starts_with_sep b then b
  else if (String.eqb path "" || ends_with_sep path)%bool then path +:+ b
  else path +:+ "/" +:+ b.

Definition os_path_join (a : string) (p : list string) : string :=
  fold_left join_component p a.

(** [enumerate(l, start)] *)
Fixpoint enumerate {A} (start : nat) (l : list A) : list (nat * A) :=
  match l with
  | [] => []
  | x :: rest => (start, x) :: enumerate (S start) rest
  end.

(** Sequencing of pure evaluations that may raise. *)
Definition and_then {A B} (r : outcome A) (k : A -> outcome B) : outcome B :=
  match r with
  | Return a => k a
  | Raise e => Raise e
  end.

(** A list comprehension [[f x for x in l]] whose element expression may
    raise: elements are evaluated left to right and the first exception
    ends the evaluation. *)
Fixpoint comprehension {A B} (f : A -> outcome B) (l : list A)
  : outcome (list B) :=
  match l with
  | [] => Return []
  | x :: rest =>
      and_then (f x) (fun y =>
      and_then (comprehension f rest) (fun ys => Return (y :: ys)))
  end.

(** [format(v, ".4f")]: numbers are formatted, [None] and strings are
    refused. *)
Definition format_4f (v : pyval) : outcome pyval :=
  match v with
  | VFloat f => Return (VFloat f)
  | VInt n => Return (VInt n)
  | VNone => Raise TypeError
  | VStr _ => Raise ValueError
  end.

(** The longest sleep [time.sleep] accepts, in seconds: the largest whole
    number of seconds whose count of nanoseconds fits a signed 64-bit
    integer, [(2 ** 63 - 1) // 10 ** 9]. *)
Definition sleep_limit : Z := 9223372036.

(** Control leaving one iteration of a [for] loop whose body may [return]. *)
Inductive loop_ctl := Continue | ReturnNone.

Section Script.

Context {W : Type} (env : Services W).

(** [time.sleep(seconds)] for an [int]: a negative length is refused with
    [ValueError], a length that does not fit the nanosecond timestamp of the
    interpreter ([sleep_limit] seconds at most) with [OverflowError], both
    before any sleeping. *)
Definition do_sleep (seconds : Z) : M W unit :=
  fun w =>
    if seconds <? 0 then (Raise ValueError, w, [])
    else if sleep_limit <? seconds then (Raise OverflowError, w, [])
    else (Return tt, sleep env seconds w, [ESleep seconds]).

(** A comprehension whose element expression is a computation. *)
Fixpoint for_each {A B} (f : A -> M W B) (l : list A) : M W (list B) :=
  match l with
  | [] => ret []
  | x :: rest =>
      let* y := f x in
      let* ys := for_each f rest in
      ret (y :: ys)
  end.

(** [for x in l: body x] *)
Fixpoint for_in {A} (body : A -> M W unit) (l : list A) : M W unit :=
  match l with
  | [] => ret tt
  | x :: rest => body x ;; for_in body rest
  end.

(** ** get_embedding *)

(** [text] is a [str] by its annotation; the value the caller supplies is
    passed on as it is. *)
Definition get_embedding (text : pyval) (model_name : string) : M W vector :=
  try_except
    (let* response := call (EEmbeddingsCreate text model_name)
                           (embeddings_create env text model_name) in
     let* item := lift (first_item (data response)) in
     ret (embedding item))
    (fun e =>
       print (MsgEmbeddingError e) ;;
       raise e).

(** ** setup_qdrant_collection *)

Section Setup.

Variables (collection_name : string) (vector_size : Z) (max_retries : Z).

Definition collection_names (r : CollectionsResponse) : list string :=
  map name (collections r).

(** Lines 77-87: the inner [try] that deletes the collection if it exists. *)
Definition delete_if_exists (attempt : nat) : M W unit :=
  try_except
    (let* collections := call EGetCollections (get_collections env) in
     if contains (collection_names collections) collection_name then
       print (MsgDeleting collection_name (Z.of_nat attempt + 1) max_retries) ;;
       call (EDeleteCollection collection_name)
            (delete_collection env collection_name) ;;
       do_sleep 2
     else ret tt)
    (fun e => print (MsgCheckWarning e)).

Definition vectors_config : gmap string VectorParams :=
  {[ "text" := {| size := vector_size; distance := COSINE |} ]}.

(** Lines 76-106: the body of the outer [try].  It ends either in the
    [return] of line 104 or in an exception. *)
Definition attempt_body (attempt : nat) : M W unit :=
  delete_if_exists attempt ;;
  print (MsgCreating collection_name vector_size) ;;
  call (ECreateCollection collection_name vectors_config)
       (create_collection env collection_name vectors_config) ;;
  let* collections := call EGetCollections (get_collections env) in
  if contains (collection_names collections) collection_name then
    print (MsgCreated collection_name)
  else raise (VerifyFailed collection_name).

(** Lines 114-118: best-effort dump of the current collections. *)
Definition dump_collections : M W unit :=
  try_except
    (let* collections := call EGetCollections (get_collections env) in
     print (MsgCurrentCollections (collection_names collections)))
    (fun e2 => print (MsgCouldNotList e2)).

(** Lines 121-131: best-effort removal of the on-disk collection data. *)
Definition force_cleanup : M W unit :=
  try_except
    (print MsgForceCleanup ;;
     let* cwd := call EGetcwd (getcwd env) in
     let data_dir :=
       os_path_join cwd ["qdrant_storage"; "collections"; collection_name] in
     let* found := call_total (EPathExists data_dir)
                              (path_exists env data_dir) in
     if (found : bool) then
       print (MsgRemovingDir data_dir) ;;
       call (ERmtree data_dir) (rmtree env data_dir) ;;
       print MsgDirRemoved
     else ret tt)
    (fun e2 => print (MsgCleanupFailed e2)).

(** Lines 110-133: the handler of the last attempt; it ends in the bare
    [raise] that re-raises the exception being handled. *)
Definition surface_last_error {A} (e : exn) : M W A :=
  print (MsgSetupFailed max_retries) ;;
  print (MsgErrorDetails e) ;;
  dump_collections ;;
  force_cleanup ;;
  raise e.

(** Lines 135-136. *)
Definition backoff (attempt : nat) (e : exn) : M W unit :=
  print (MsgRetrying (Z.of_nat attempt + 1) e (2 ^ Z.of_nat attempt)) ;;
  do_sleep (2 ^ Z.of_nat attempt).

(** Lines 75-136: one iteration of the loop. *)
Definition iteration (attempt : nat) : M W loop_ctl :=
  try_except
    (attempt_body attempt ;; ret ReturnNone)
    (fun e =>
       if Z.of_nat attempt =? max_retries - 1 then surface_last_error e
       else backoff attempt e ;; ret Continue).

(** [for attempt in range: body]; falling off the loop returns [None]. *)
Fixpoint for_attempts (body : nat -> M W loop_ctl) (range : list nat)
  : M W unit :=
  match range with
  | [] => ret tt
  | attempt :: rest =>
      let* c := body attempt in
      match c with
      | ReturnNone => ret tt
      | Continue => for_attempts body rest
      end
  end.

(** [range(max_retries)] *)
Definition range (n : Z) : list nat := seq 0 (Z.to_nat n).

Definition setup_qdrant_collection : M W unit :=
  for_attempts iteration (range max_retries).

End Setup.

(** ** add_to_qdrant *)

Definition make_point (item : nat * (gmap string pyval * vector))
  : outcome PointStruct :=
  let '(idx, (data_obj, embedding)) := item in
  and_then (getitem data_obj "lyric") (fun lyric =>
  and_then (getitem data_obj "id") (fun id =>
  Return {| ps_id := Z.of_nat idx;
            ps_vector := {[ "text" := embedding ]};
            ps_payload := {[ "text" := lyric; "id" := id ]} |})).

Definition add_to_qdrant (collection_name : string)
    (data_objs : list (gmap string pyval)) (embeddings : list vector)
  : M W unit :=
  let* points :=
    lift (comprehension make_point
            (enumerate 0 (zip data_objs embeddings))) in
  let* operation_info :=
    call (EUpsert collection_name points true)
         (upsert env collection_name points true) in
  print (MsgUploaded (length points) collection_name).

(** ** search_similar *)

(** [hit.payload or {}] *)
Definition payload_or_empty (payload : option (gmap string pyval))
  : gmap string pyval :=
  match payload with
  | Some p => if decide (p = ∅) then ∅ else p
  | None => ∅
  end.

(** Lines 198-203: the dictionary appended for one hit. *)
Definition project (hit : ScoredPoint) : gmap string pyval :=
  let payload := payload_or_empty (sp_payload hit) in
  {[ "lyric" := dict_get payload "text" (VStr "");
     "id" := dict_get payload "id" VNone;
     "score" := VFloat (sp_score hit) ]}.

Definition search_similar (collection_name : string)
    (query_embedding : vector) (limit : Z) : M W (list (gmap string pyval)) :=
  let* search_result :=
    call (ESearch collection_name ("text", query_embedding) limit false true)
         (search env collection_name ("text", query_embedding) limit
                 false true) in
  ret (fold_left (fun results hit => results ++ [project hit])
                 search_result []).

(** ** main *)

Section Main.

(* The module-level configuration read from the environment. *)
Variables (MODEL_NAME COLLECTION_NAME : string).

Definition data_objs : list (gmap string pyval) :=
  [ {[ "id" := VInt 1; "lyric" := VStr "說了再見，才發現再也見不到" ]};
    {[ "id" := VInt 2; "lyric" := VStr "天涼了，雨下了，妳走了" ]} ].

Definition query_text : string := "我說再見".

(** Lines 242-246: the lines printed for one result. *)
Definition print_result (item : nat * gmap string pyval) : M W unit :=
  let '(i, result) := item in
  let* score := lift (getitem result "score") in
  let* shown := lift (format_4f score) in
  print (MsgResult i shown) ;;
  let* id := lift (getitem result "id") in
  print (MsgResultId id) ;;
  let* lyric := lift (getitem result "lyric") in
  print (MsgResultLyric lyric) ;;
  print MsgRule.

(** Lines 221-246: the body of the [try]. *)
Definition demo : M W unit :=
  print MsgGenerating ;;
  let* texts := lift (comprehension (fun item => getitem item "lyric")
                                    data_objs) in
  let* embedding_array :=
    for_each (fun text => get_embedding text MODEL_NAME) texts in
  let embedding_dim :=
    match embedding_array with
    | first :: _ => length first
    | [] => 0%nat
    end in
  print (MsgSettingUp (length embedding_array) embedding_dim) ;;
  setup_qdrant_collection COLLECTION_NAME (Z.of_nat embedding_dim) 3 ;;
  add_to_qdrant COLLECTION_NAME data_objs embedding_array ;;
  print MsgPerforming ;;
  print (MsgQuery query_text) ;;
  let* query_embedding := get_embedding (VStr query_text) MODEL_NAME in
  let* results := search_similar COLLECTION_NAME query_embedding 2 in
  print MsgResultsHeader ;;
  print MsgRule ;;
  for_in print_result (enumerate 1 results).

(** Lines 248-253: the top-level handler. *)
Definition troubleshoot (e : exn) : M W unit :=
  print (MsgError e) ;;
  print MsgTipsHeader ;;
  print MsgTipModel ;;
  print MsgTipConnection ;;
  print (MsgTipCollection COLLECTION_NAME).

Definition main : M W unit :=
  try_except demo troubleshoot.

End Main.

End Script.

Arguments main {W} env MODEL_NAME COLLECTION_NAME.

(** ** Observations on traces *)

Definition is_provider_call (ev : event) : bool :=
  match ev with EEmbeddingsCreate _ _ => true | _ => false end.

Definition is_create (ev : event) : bool :=
  match ev with ECreateCollection _ _ => true | _ => false end.

Definition is_delete (ev : event) : bool :=
  match ev with EDeleteCollection _ => true | _ => false end.

Definition count (p : event -> bool) (t : list event) : nat :=
  length (filter (fun ev => p ev = true) t).

(** The upsert calls of a trace, in order. *)
Fixpoint upserts (t : list event)
  : list (string * list PointStruct * bool) :=
  match t with
  | [] => []
  | EUpsert collection_name points wait :: rest =>
      (collection_name, points, wait) :: upserts rest
  | _ :: rest => upserts rest
  end.

(** ** Reference collaborators *)

(** An in-memory store: a collection is a map from point identifiers to
    points, upsert inserts or replaces by identifier, search returns the
    stored points of the collection (at most [limit] of them), and the
    provider answers every text with one fixed embedding. *)
Module Memory.

Definition world : Type := gmap string (gmap Z PointStruct).

Definition listing (w : world) : CollectionsResponse :=
  {| collections := map (fun entry => {| name := fst entry |})
                        (map_to_list w) |}.

Definition put_points (c : gmap Z PointStruct) (points : list PointStruct)
  : gmap Z PointStruct :=
  fold_left (fun c p => <[ps_id p := p]> c) points c.

Definition as_hit (with_vectors with_payload : bool) (p : PointStruct)
  : ScoredPoint :=
  {| sp_id := ps_id p;
     sp_score := 1%float;
     sp_payload := if with_payload then Some (ps_payload p) else None;
     sp_vector := if with_vectors then Some (ps_vector p) else None |}.

Definition services : Services world := {|
  embeddings_create := fun _ _ w =>
    (Return {| data := [ {| embedding := [0.5%float; 0.25%float] |} ] |}, w);
  get_collections := fun w => (Return (listing w), w);
  delete_collection := fun n w => (Return tt, delete n w);
  create_collection := fun n _ w =>
    match w !! n with
    | Some _ => (Raise (ServiceError "collection already exists"), w)
    | None => (Return tt, <[n := ∅]> w)
    end;
  upsert := fun n points _ w =>
    match w !! n with
    | Some c => (Return tt, <[n := put_points c points]> w)
    | None => (Raise (ServiceError "collection not found"), w)
    end;
  search := fun n _ limit with_vectors with_payload w =>
    match w !! n with
    | Some c =>
        (Return (take (Z.to_nat limit)
                   (map (fun entry => as_hit with_vectors with_payload
                                             (snd entry))
                        (map_to_list c))), w)
    | None => (Raise (ServiceError "collection not found"), w)
    end;
  sleep := fun _ w => w;
  getcwd := fun w => (Return "/srv/demo", w);
  path_exists := fun _ w => (false, w);
  rmtree := fun _ w => (Return tt, w)
|}.

(** The same services with a provider that is down. *)
Definition provider_down : Services world := {|
  embeddings_create := fun _ _ w => (Raise (ServiceError "timeout"), w);
  get_collections := get_collections services;
  delete_collection := delete_collection services;
  create_collection := create_collection services;
  upsert := upsert services;
  search := search services;
  sleep := sleep services;
  getcwd := getcwd services;
  path_exists := path_exists services;
  rmtree := rmtree services
|}.

(** The same services with a store that refuses every creation. *)
Definition store_down : Services world := {|
  embeddings_create := embeddings_create services;
  get_collections := get_collections services;
  delete_collection := delete_collection services;
  create_collection := fun _ _ w =>
    (Raise (ServiceError "connection refused"), w);
  upsert := upsert services;
  search := search services;
  sleep := sleep services;
  getcwd := getcwd services;
  path_exists := path_exists services;
  rmtree := rmtree services
|}.

(** The same services with a store that answers every query with [hits]. *)
Definition answering (hits : list ScoredPoint) : Services world := {|
  embeddings_create := embeddings_create services;
  get_collections := get_collections services;
  delete_collection := delete_collection services;
  create_collection := create_collection services;
  upsert := upsert services;
  search := fun _ _ _ _ _ w => (Return hits, w);
  sleep := sleep services;
  getcwd := getcwd services;
  path_exists := path_exists services;
  rmtree := rmtree services
|}.

(** A world whose only collection is "lyrics", without any point. *)
Definition fresh : world := {[ "lyrics" := ∅ ]}.

Definition record7 : gmap string pyval :=
  {[ "id" := VInt 7; "lyric" := VStr "X" ]}.

Definition record8 : gmap string pyval :=
  {[ "id" := VInt 8; "lyric" := VStr "Y" ]}.

(** A hit with a complete payload, one with an empty payload and one
    without payload. *)
Definition full_hit : ScoredPoint :=
  {| sp_id := 0; sp_score := 0.75%float;
     sp_payload := Some {[ "text" := VStr "X"; "id" := VInt 7 ]};
     sp_vector := None |}.

Definition empty_hit : ScoredPoint :=
  {| sp_id := 1; sp_score := 0.5%float; sp_payload := Some ∅;
     sp_vector := None |}.

Definition bare_hit : ScoredPoint :=
  {| sp_id := 2; sp_score := 0.25%float; sp_payload := None;
     sp_vector := None |}.

End Memory.

(** The payload of [hit] is absent or has no entry for [key]. *)
Definition lacks (hit : ScoredPoint) (key : string) : Prop :=
  match sp_payload hit with
  | Some payload => payload !! key = None
  | None => True
  end.

(** A record that has the two fields [add_to_qdrant] reads. *)
Definition well_formed (data_obj : gmap string pyval) : Prop :=
  is_Some (data_obj !! "lyric") /\ is_Some (data_obj !! "id").

(** ** Runs of the provisioner, attempt by attempt *)

Section Runs.

Context {W : Type} (env : Services W).
Variables (collection_name : string) (vector_size max_retries : Z).

(** The world in which iteration [attempt] of the loop starts, when the loop
    gets that far from the initial world [w]. *)
Fixpoint world_before (attempt : nat) (w : W) : W :=
  match attempt with
  | O => w
  | S previous =>
      world_of (iteration env collection_name vector_size max_retries
                          previous (world_before previous w))
  end.

(** The run of the [try] body of iteration [attempt], and of the whole
    iteration (body and handler). *)
Definition attempt_run (attempt : nat) (w : W) :=
  attempt_body env collection_name vector_size max_retries attempt
               (world_before attempt w).

Definition iteration_run (attempt : nat) (w : W) :=
  iteration env collection_name vector_size max_retries attempt
            (world_before attempt w).

Definition attempt_fails_with (attempt : nat) (w : W) (e : exn) : Prop :=
  result_of (attempt_run attempt w) = Raise e.

(** Every one of the [max_retries] attempts ends in an exception. *)
Definition every_attempt_fails (w : W) : Prop :=
  forall attempt, (attempt < Z.to_nat max_retries)%nat ->
    exists e, attempt_fails_with attempt w e.

(** The delay slept before attempt [attempt]: the sleep that ends the
    previous iteration, if there is one. *)
Definition delay_before_attempt (attempt : nat) (w : W) : option Z :=
  match attempt with
  | O => None
  | S previous =>
      match last (trace_of (iteration_run previous w)) with
      | Some (ESleep seconds) => Some seconds
      | _ => None
      end
  end.

End Runs.

(** ** What the store gives back *)

(** The point built for input position [i] by a run of [add_to_qdrant] with
    trace [t]. *)
Definition point_written_at (t : list event) (i : nat) : option PointStruct :=
  match upserts t with
  | [(_, points, _)] => points !! i
  | _ => None
  end.

(** [hit] is the stored point [p] as a query returns it with its payload:
    same identifier, same payload. *)
Definition stored_as (hit : ScoredPoint) (p : PointStruct) : Prop :=
  sp_id hit = ps_id p /\ sp_payload hit = Some (ps_payload p).

(** ** Further observations on traces *)

Definition is_filesystem (ev : event) : bool :=
  match ev with
  | EGetcwd | EPathExists _ | ERmtree _ => true
  | _ => false
  end.

Definition is_upsert (ev : event) : bool :=
  match ev with EUpsert _ _ _ => true | _ => false end.

Definition is_search (ev : event) : bool :=
  match ev with ESearch _ _ _ _ _ => true | _ => false end.

Definition is_store_call (ev : event) : bool :=
  match ev with
  | EGetCollections | EDeleteCollection _ | ECreateCollection _ _
  | EUpsert _ _ _ | ESearch _ _ _ _ _ => true
  | _ => false
  end.

(** The directory of line 125 for the working directory [cwd]. *)
Definition data_dir_under (cwd collection_name : string) : string :=
  os_path_join cwd ["qdrant_storage"; "collections"; collection_name].

(** The events a provisioning of [collection_name] may issue: listings,
    deletions and creations of that very collection (created with the one
    configuration of lines 93-96), sleeps, probes and removals of the data
    directory of line 125, and prints; never a provider call, an upsert or a
    search. *)
Definition provisioner_event (collection_name : string) (vector_size : Z)
    (ev : event) : Prop :=
  match ev with
  | EDeleteCollection n => n = collection_name
  | ECreateCollection n config =>
      n = collection_name /\ config = vectors_config vector_size
  | EPathExists path | ERmtree path =>
      exists cwd, path = data_dir_under cwd collection_name
  | EEmbeddingsCreate _ _ | EUpsert _ _ _ | ESearch _ _ _ _ _ => False
  | _ => True
  end.

(** Faulty variants of the in-memory collaborators. *)
Module Faults.

(** A provider whose response has no item. *)
Definition empty_response : Services Memory.world := {|
  embeddings_create := fun _ _ w => (Return {| data := [] |}, w);
  get_collections := get_collections Memory.services;
  delete_collection := delete_collection Memory.services;
  create_collection := create_collection Memory.services;
  upsert := upsert Memory.services;
  search := search Memory.services;
  sleep := sleep Memory.services;
  getcwd := getcwd Memory.services;
  path_exists := path_exists Memory.services;
  rmtree := rmtree Memory.services
|}.

(** A store that cannot list its collections. *)
Definition listing_down : Services Memory.world := {|
  embeddings_create := embeddings_create Memory.services;
  get_collections := fun w => (Raise (ServiceError "listing failed"), w);
  delete_collection := delete_collection Memory.services;
  create_collection := create_collection Memory.services;
  upsert := upsert Memory.services;
  search := search Memory.services;
  sleep := sleep Memory.services;
  getcwd := getcwd Memory.services;
  path_exists := path_exists Memory.services;
  rmtree := rmtree Memory.services
|}.

(** A store that refuses every deletion. *)
Definition delete_down : Services Memory.world := {|
  embeddings_create := embeddings_create Memory.services;
  get_collections := get_collections Memory.services;
  delete_collection := fun _ w => (Raise (ServiceError "locked"), w);
  create_collection := create_collection Memory.services;
  upsert := upsert Memory.services;
  search := search Memory.services;
  sleep := sleep Memory.services;
  getcwd := getcwd Memory.services;
  path_exists := path_exists Memory.services;
  rmtree := rmtree Memory.services
|}.

(** A store that acknowledges a creation without performing it. *)
Definition forgetful : Services Memory.world := {|
  embeddings_create := embeddings_create Memory.services;
  get_collections := get_collections Memory.services;
  delete_collection := delete_collection Memory.services;
  create_collection := fun _ _ w => (Return tt, w);
  upsert := upsert Memory.services;
  search := search Memory.services;
  sleep := sleep Memory.services;
  getcwd := getcwd Memory.services;
  path_exists := path_exists Memory.services;
  rmtree := rmtree Memory.services
|}.

(** A store that refuses a creation as long as the collection "busy"
    exists, and drops that collection when it refuses. *)
Definition recovering : Services Memory.world := {|
  embeddings_create := embeddings_create Memory.services;
  get_collections := get_collections Memory.services;
  delete_collection := delete_collection Memory.services;
  create_collection := fun n config w =>
    match w !! "busy" with
    | Some _ => (Raise (ServiceError "busy"), delete "busy" w)
    | None => create_collection Memory.services n config w
    end;
  upsert := upsert Memory.services;
  search := search Memory.services;
  sleep := sleep Memory.services;
  getcwd := getcwd Memory.services;
  path_exists := path_exists Memory.services;
  rmtree := rmtree Memory.services
|}.


(** A store that refuses every creation, on a machine where every probed
    path exists. *)
Definition store_down_on_disk : Services Memory.world := {|
  embeddings_create := embeddings_create Memory.services;
  get_collections := get_collections Memory.services;
  delete_collection := delete_collection Memory.services;
  create_collection := fun _ _ w =>
    (Raise (ServiceError "connection refused"), w);
  upsert := upsert Memory.services;
  search := search Memory.services;
  sleep := sleep Memory.services;
  getcwd := getcwd Memory.services;
  path_exists := fun _ w => (true, w);
  rmtree := rmtree Memory.services
|}.

End Faults.

(** A world in which the collection "busy" exists. *)
Definition busy_world : Memory.world := {[ "busy" := ∅ ]}.

(** A record without "id". *)
Definition record_without_id : gmap string pyval := {[ "lyric" := VStr "Y" ]}.

(** ** The demo, stage by stage *)

(** The texts of the two sample records (line 223). *)
Definition first_text : pyval := VStr "說了再見，才發現再也見不到".
Definition second_text : pyval := VStr "天涼了，雨下了，妳走了".
Definition sample_texts : list pyval := [first_text; second_text].

(** The four lines printed for the hit of rank [i] (lines 243-246). *)
Definition printed_block (item : nat * ScoredPoint) : list event :=
  let '(i, hit) := item in
  let payload := payload_or_empty (sp_payload hit) in
  [EPrint (MsgResult i (VFloat (sp_score hit)));
   EPrint (MsgResultId (dict_get payload "id" VNone));
   EPrint (MsgResultLyric (dict_get payload "text" (VStr "")));
   EPrint MsgRule].

Section Stages.

Context {W : Type} (env : Services W).
Variables (MODEL_NAME COLLECTION_NAME : string).

(** Lines 230-246 of [main], once the collection is provisioned. *)
Definition ingest_and_query (embedding_array : list vector) : M W unit :=
  add_to_qdrant env COLLECTION_NAME data_objs embedding_array ;;
  print MsgPerforming ;;
  print (MsgQuery query_text) ;;
  let* query_embedding := get_embedding env (VStr query_text) MODEL_NAME in
  let* results := search_similar env COLLECTION_NAME query_embedding 2 in
  print MsgResultsHeader ;;
  print MsgRule ;;
  for_in print_result (enumerate 1 results).

(** The dimension of line 225. *)
Definition dimension_of (embedding_array : list vector) : nat :=
  match embedding_array with
  | first :: _ => length first
  | [] => 0%nat
  end.

(** Lines 225-246 of [main], once the embeddings are there. *)
Definition provision_and_go_on (embedding_array : list vector) : M W unit :=
  print (MsgSettingUp (length embedding_array)
                      (dimension_of embedding_array)) ;;
  setup_qdrant_collection env COLLECTION_NAME
    (Z.of_nat (dimension_of embedding_array)) 3 ;;
  ingest_and_query embedding_array.

End Stages.

(** The response of the in-memory provider and its only item. *)
Definition sample_item : Embedding :=
  {| embedding := [0.5%float; 0.25%float] |}.
Definition sample_response : CreateEmbeddingResponse :=
  {| data := [sample_item] |}.

(** ** Backoff delays of a run *)

(** The delays of the backoff sleeps of a trace, in order: the sleeps that
    directly follow a retry message (lines 135-136). *)
Fixpoint backoffs (t : list event) : list Z :=
  match t with
  | [] => []
  | EPrint (MsgRetrying _ _ _) :: rest =>
      match rest with
      | ESleep seconds :: _ => seconds :: backoffs rest
      | _ => backoffs rest
      end
  | _ :: rest => backoffs rest
  end.

(** An event other than the retry message. *)
Definition not_retry_message (ev : event) : Prop :=
  match ev with
  | EPrint (MsgRetrying _ _ _) => False
  | _ => True
  end.

(** * Properties *)

(** ** Running computations *)

Example memory_demo_runs :
  result_of (main Memory.services "embedding-model" "lyrics" ∅) = Return tt.
Proof. vm_compute. reflexivity. Qed.

Lemma bind_return {W A B} (m : M W A) (k : A -> M W B) w a w1 t1 :
  m w = (Return a, w1, t1) ->
  bind m k w = (result_of (k a w1), world_of (k a w1),
                t1 ++ trace_of (k a w1)).
Proof.
  intros Hm. unfold bind. rewrite Hm.
  destruct (k a w1) as [[r w2] t2]. reflexivity.
Qed.

Lemma bind_raise {W A B} (m : M W A) (k : A -> M W B) w e w1 t1 :
  m w = (Raise e, w1, t1) -> bind m k w = (Raise e, w1, t1).
Proof. intros Hm. unfold bind. rewrite Hm. reflexivity. Qed.

Lemma run_eta {W A} (r : outcome A * W * list event) :
  r = (result_of r, world_of r, trace_of r).
Proof. destruct r as [[? ?] ?]. reflexivity. Qed.

(** ** get_embedding *)

Section GetEmbedding.

Context {W : Type} (env : Services W).

Lemma get_embedding_raises text model_name w e w1 :
  embeddings_create env text model_name w = (Raise e, w1) ->
  get_embedding env text model_name w =
    (Raise e, w1,
     [EEmbeddingsCreate text model_name; EPrint (MsgEmbeddingError e)]).
Proof.
  intros Hcall. unfold get_embedding, try_except, bind, call.
  rewrite Hcall. reflexivity.
Qed.

Lemma get_embedding_returns text model_name w response w1 item rest :
  embeddings_create env text model_name w = (Return response, w1) ->
  data response = item :: rest ->
  get_embedding env text model_name w =
    (Return (embedding item), w1, [EEmbeddingsCreate text model_name]).
Proof.
  intros Hcall Hdata. unfold get_embedding, try_except, bind, call, lift.
  rewrite Hcall, Hdata. reflexivity.
Qed.

(** A response without any item: line 56 raises [IndexError], which takes
    the same path as a provider failure. *)
Lemma get_embedding_empty_response text model_name w response w1 :
  embeddings_create env text model_name w = (Return response, w1) ->
  data response = [] ->
  get_embedding env text model_name w =
    (Raise IndexError, w1,
     [EEmbeddingsCreate text model_name;
      EPrint (MsgEmbeddingError IndexError)]).
Proof.
  intros Hcall Hdata. unfold get_embedding, try_except, bind, call, lift.
  rewrite Hcall, Hdata. reflexivity.
Qed.

(** C6: when the provider call fails with [e], [get_embedding] prints the
    failure and raises the same [e], having called the provider exactly once;
    when the provider answers, it returns the embedding of the first item of
    the response, again after exactly one call. *)
Theorem get_embedding_reraises_or_returns_first text model_name w :
  (forall e w1,
      embeddings_create env text model_name w = (Raise e, w1) ->
      let run := get_embedding env text model_name w in
      result_of run = Raise e /\
      In (EPrint (MsgEmbeddingError e)) (trace_of run) /\
      count is_provider_call (trace_of run) = 1%nat) /\
  (forall response w1 item rest,
      embeddings_create env text model_name w = (Return response, w1) ->
      data response = item :: rest ->
      let run := get_embedding env text model_name w in
      result_of run = Return (embedding item) /\
      count is_provider_call (trace_of run) = 1%nat).
Proof.
  split.
  - intros e w1 Hcall run. subst run.
    rewrite (get_embedding_raises _ _ _ _ _ Hcall). cbn.
    repeat split; auto.
  - intros response w1 item rest Hcall Hdata run. subst run.
    rewrite (get_embedding_returns _ _ _ _ _ _ _ Hcall Hdata).
    split; reflexivity.
Qed.

End GetEmbedding.

Lemma get_embedding_reraises_or_returns_first_witness :
  (let run := get_embedding Memory.provider_down (VStr "X") "m" ∅ in
   result_of run = Raise (ServiceError "timeout") /\
   In (EPrint (MsgEmbeddingError (ServiceError "timeout"))) (trace_of run) /\
   count is_provider_call (trace_of run) = 1%nat) /\
  (let run := get_embedding Memory.services (VStr "X") "m" ∅ in
   result_of run = Return [0.5%float; 0.25%float] /\
   count is_provider_call (trace_of run) = 1%nat).
Proof.
  split.
  - apply (proj1 (get_embedding_reraises_or_returns_first
                    Memory.provider_down (VStr "X") "m" ∅)
             (ServiceError "timeout") ∅).
    reflexivity.
  - apply (proj2 (get_embedding_reraises_or_returns_first
                    Memory.services (VStr "X") "m" ∅)
             {| data := [ {| embedding := [0.5%float; 0.25%float] |} ] |}
             ∅ {| embedding := [0.5%float; 0.25%float] |} []).
    + reflexivity.
    + reflexivity.
Defined.

(** ** search_similar *)

Lemma collect_results (hits : list ScoredPoint) (acc : list (gmap string pyval)) :
  fold_left (fun results hit => results ++ [project hit]) hits acc =
  acc ++ map project hits.
Proof.
  revert acc. induction hits as [|hit hits IH]; intros acc; simpl.
  - now rewrite app_nil_r.
  - rewrite IH, <- app_assoc. reflexivity.
Qed.

Lemma payload_or_empty_lookup (payload : gmap string pyval) (key : string) :
  payload_or_empty (Some payload) !! key = payload !! key.
Proof.
  unfold payload_or_empty. destruct (decide (payload = ∅)) as [->|]; reflexivity.
Qed.

Lemma dict_get_present (hit : ScoredPoint) payload key v default :
  sp_payload hit = Some payload -> payload !! key = Some v ->
  dict_get (payload_or_empty (sp_payload hit)) key default = v.
Proof.
  intros Hp Hk. unfold dict_get.
  rewrite Hp, payload_or_empty_lookup, Hk. reflexivity.
Qed.

Lemma dict_get_lacking (hit : ScoredPoint) key default :
  lacks hit key ->
  dict_get (payload_or_empty (sp_payload hit)) key default = default.
Proof.
  unfold lacks, dict_get. destruct (sp_payload hit) as [payload|].
  - intros Hk. rewrite payload_or_empty_lookup, Hk. reflexivity.
  - intros _. reflexivity.
Qed.

Lemma project_lyric (hit : ScoredPoint) :
  project hit !! "lyric" =
  Some (dict_get (payload_or_empty (sp_payload hit)) "text" (VStr "")).
Proof. unfold project. now simplify_map_eq. Qed.

Lemma project_id (hit : ScoredPoint) :
  project hit !! "id" =
  Some (dict_get (payload_or_empty (sp_payload hit)) "id" VNone).
Proof. unfold project. now simplify_map_eq. Qed.

Lemma project_score (hit : ScoredPoint) :
  project hit !! "score" = Some (VFloat (sp_score hit)).
Proof. unfold project. now simplify_map_eq. Qed.

Lemma project_full (hit : ScoredPoint) payload text id :
  sp_payload hit = Some payload ->
  payload !! "text" = Some text -> payload !! "id" = Some id ->
  project hit =
  {[ "lyric" := text; "id" := id; "score" := VFloat (sp_score hit) ]}.
Proof.
  intros Hp Ht Hi. unfold project.
  rewrite (dict_get_present hit payload "text" text _ Hp Ht).
  rewrite (dict_get_present hit payload "id" id _ Hp Hi).
  reflexivity.
Qed.

Section SearchSimilar.

Context {W : Type} (env : Services W).

Lemma search_similar_returns collection_name query limit w hits w1 :
  search env collection_name ("text", query) limit false true w =
    (Return hits, w1) ->
  search_similar env collection_name query limit w =
    (Return (map project hits), w1,
     [ESearch collection_name ("text", query) limit false true]).
Proof.
  intros Hcall. unfold search_similar, bind, call, ret.
  rewrite Hcall, collect_results. reflexivity.
Qed.

(** A failed query is not handled: it propagates as it is. *)
Lemma search_similar_raises collection_name query limit w e w1 :
  search env collection_name ("text", query) limit false true w =
    (Raise e, w1) ->
  search_similar env collection_name query limit w =
    (Raise e, w1,
     [ESearch collection_name ("text", query) limit false true]).
Proof.
  intros Hcall. unfold search_similar, bind, call. rewrite Hcall. reflexivity.
Qed.

(** C3: whatever hits the store returns for the query (issued on the vector
    named "text", with vectors suppressed and payloads included),
    [search_similar] returns one result per hit, in the store's order, the
    result at position [i] being the projection of hit [i]; a hit whose
    payload has "text" and "id" is projected to lyric, id and score.  So [N]
    hits below the limit give [N] results, and no hit gives the empty list
    rather than an error. *)
Theorem search_similar_one_result_per_hit
    collection_name query limit w hits w1 :
  search env collection_name ("text", query) limit false true w =
    (Return hits, w1) ->
  exists results,
    search_similar env collection_name query limit w =
      (Return results, w1,
       [ESearch collection_name ("text", query) limit false true]) /\
    length results = length hits /\
    (forall (i : nat) hit, hits !! i = Some hit ->
       results !! i = Some (project hit)) /\
    (forall hit payload text id,
       sp_payload hit = Some payload ->
       payload !! "text" = Some text -> payload !! "id" = Some id ->
       project hit =
       {[ "lyric" := text; "id" := id; "score" := VFloat (sp_score hit) ]}) /\
    (Z.of_nat (length hits) < limit ->
       Z.of_nat (length results) = Z.of_nat (length hits)) /\
    (hits = [] -> results = []).
Proof.
  intros Hcall. exists (map project hits).
  split; [apply search_similar_returns; exact Hcall|].
  split; [apply length_map|].
  split.
  { intros i hit Hi. rewrite list_lookup_fmap, Hi. reflexivity. }
  split; [apply project_full|].
  split.
  { intros _. now rewrite length_map. }
  intros ->. reflexivity.
Qed.

(** C10: a hit without payload, or whose payload lacks "text" or "id", does
    not make [search_similar] fail: the result for that hit still carries the
    hit's score, its lyric is the empty string when "text" is missing and its
    id is [None] when "id" is missing. *)
Theorem search_similar_tolerates_missing_payload
    collection_name query limit w hits w1 :
  search env collection_name ("text", query) limit false true w =
    (Return hits, w1) ->
  exists results,
    result_of (search_similar env collection_name query limit w) =
      Return results /\
    forall (i : nat) hit, hits !! i = Some hit ->
      exists result,
        results !! i = Some result /\
        result !! "score" = Some (VFloat (sp_score hit)) /\
        (lacks hit "text" -> result !! "lyric" = Some (VStr "")) /\
        (lacks hit "id" -> result !! "id" = Some VNone).
Proof.
  intros Hcall. exists (map project hits).
  rewrite (search_similar_returns _ _ _ _ _ _ Hcall).
  split; [reflexivity|].
  intros i hit Hi. exists (project hit).
  split; [rewrite list_lookup_fmap, Hi; reflexivity|].
  split; [apply project_score|].
  split.
  - intros Hl. rewrite project_lyric, (dict_get_lacking _ _ _ Hl). reflexivity.
  - intros Hl. rewrite project_id, (dict_get_lacking _ _ _ Hl). reflexivity.
Qed.

End SearchSimilar.

Lemma search_similar_one_result_per_hit_witness :
  search (Memory.answering [Memory.full_hit]) "lyrics" ("text", []) 2
         false true ∅ = (Return [Memory.full_hit], ∅) /\
  exists results,
    search_similar (Memory.answering [Memory.full_hit]) "lyrics" [] 2 ∅ =
      (Return results, ∅, [ESearch "lyrics" ("text", []) 2 false true]) /\
    length results = length [Memory.full_hit] /\
    (forall (i : nat) hit, [Memory.full_hit] !! i = Some hit ->
       results !! i = Some (project hit)) /\
    (forall hit payload text id,
       sp_payload hit = Some payload ->
       payload !! "text" = Some text -> payload !! "id" = Some id ->
       project hit =
       {[ "lyric" := text; "id" := id; "score" := VFloat (sp_score hit) ]}) /\
    (Z.of_nat (length [Memory.full_hit]) < 2 ->
       Z.of_nat (length results) = Z.of_nat (length [Memory.full_hit])) /\
    ([Memory.full_hit] = [] -> results = []).
Proof.
  split; [reflexivity|].
  apply (search_similar_one_result_per_hit
           (Memory.answering [Memory.full_hit]) "lyrics" [] 2 ∅
           [Memory.full_hit] ∅).
  reflexivity.
Defined.

Lemma search_similar_tolerates_missing_payload_witness :
  search (Memory.answering [Memory.bare_hit; Memory.empty_hit]) "lyrics"
         ("text", []) 2 false true ∅ =
    (Return [Memory.bare_hit; Memory.empty_hit], ∅) /\
  exists results,
    result_of (search_similar
                 (Memory.answering [Memory.bare_hit; Memory.empty_hit])
                 "lyrics" [] 2 ∅) = Return results /\
    forall (i : nat) hit,
      [Memory.bare_hit; Memory.empty_hit] !! i = Some hit ->
      exists result,
        results !! i = Some result /\
        result !! "score" = Some (VFloat (sp_score hit)) /\
        (lacks hit "text" -> result !! "lyric" = Some (VStr "")) /\
        (lacks hit "id" -> result !! "id" = Some VNone).
Proof.
  split; [reflexivity|].
  apply (search_similar_tolerates_missing_payload
           (Memory.answering [Memory.bare_hit; Memory.empty_hit])
           "lyrics" [] 2 ∅ [Memory.bare_hit; Memory.empty_hit] ∅).
  reflexivity.
Defined.

Example search_similar_missing_payload_example :
  result_of (search_similar
               (Memory.answering [Memory.bare_hit; Memory.empty_hit])
               "lyrics" [] 2 ∅) =
  Return [ {[ "lyric" := VStr ""; "id" := VNone;
              "score" := VFloat 0.25%float ]};
           {[ "lyric" := VStr ""; "id" := VNone;
              "score" := VFloat 0.5%float ]} ].
Proof. vm_compute. reflexivity. Qed.

(** ** add_to_qdrant *)

Lemma make_point_ok idx (data_obj : gmap string pyval) embedding lyric id :
  data_obj !! "lyric" = Some lyric -> data_obj !! "id" = Some id ->
  make_point (idx, (data_obj, embedding)) =
  Return {| ps_id := Z.of_nat idx;
            ps_vector := {[ "text" := embedding ]};
            ps_payload := {[ "text" := lyric; "id" := id ]} |}.
Proof.
  intros Hl Hi. unfold make_point, getitem, and_then.
  rewrite Hl, Hi. reflexivity.
Qed.

(** The comprehension of lines 152-159 on records that have their fields:
    one point per pair of [zip], numbered from [start]. *)
Lemma points_built (data_objs : list (gmap string pyval))
    (embeddings : list vector) (start : nat) :
  (forall (i : nat) data_obj,
      data_objs !! i = Some data_obj -> (i < length embeddings)%nat ->
      well_formed data_obj) ->
  exists points,
    comprehension make_point (enumerate start (zip data_objs embeddings)) =
      Return points /\
    length points = Nat.min (length data_objs) (length embeddings) /\
    forall (i : nat) data_obj embedding,
      data_objs !! i = Some data_obj -> embeddings !! i = Some embedding ->
      exists lyric id,
        data_obj !! "lyric" = Some lyric /\ data_obj !! "id" = Some id /\
        points !! i =
        Some {| ps_id := Z.of_nat (start + i);
                ps_vector := {[ "text" := embedding ]};
                ps_payload := {[ "text" := lyric; "id" := id ]} |}.
Proof.
  revert embeddings start.
  induction data_objs as [|d ds IH]; intros es start Hwf.
  - exists []. repeat split; auto. intros i ? ? Hi. discriminate Hi.
  - destruct es as [|e es].
    + exists []. repeat split; auto. intros i ? ? _ Hi. discriminate Hi.
    + destruct (Hwf 0%nat d eq_refl) as [[lyric Hl] [id Hi]];
        [simpl; lia|].
      destruct (IH es (S start)) as (points & Hrun & Hlen & Hat).
      { intros i d' Hd' Hlt. apply (Hwf (S i) d' Hd'). simpl. lia. }
      eexists. split.
      { cbn [zip_with enumerate comprehension].
        rewrite (make_point_ok _ _ _ _ _ Hl Hi). cbn [and_then].
        rewrite Hrun. reflexivity. }
      split; [simpl; now rewrite Hlen|].
      intros [|i] d' e' Hd' He'.
      * injection Hd' as <-. injection He' as <-.
        exists lyric, id. rewrite Nat.add_0_r. auto.
      * destruct (Hat i d' e' Hd' He') as (l' & i' & ? & ? & Hp).
        exists l', i'. split; [assumption|]. split; [assumption|].
        rewrite lookup_cons, Hp.
        now replace (S start + i)%nat with (start + S i)%nat by lia.
Qed.

Section AddToQdrant.

Context {W : Type} (env : Services W).

(** Once the points are built there is one upsert call, and the message of
    line 167 when the store accepts it; a refusal of the store propagates. *)
Lemma add_to_qdrant_run collection_name data_objs embeddings points w :
  comprehension make_point (enumerate 0 (zip data_objs embeddings)) =
    Return points ->
  let answer := upsert env collection_name points true w in
  add_to_qdrant env collection_name data_objs embeddings w =
    match fst answer with
    | Return _ =>
        (Return tt, snd answer,
         [EUpsert collection_name points true;
          EPrint (MsgUploaded (length points) collection_name)])
    | Raise e =>
        (Raise e, snd answer, [EUpsert collection_name points true])
    end.
Proof.
  intros Hpoints answer. subst answer.
  unfold add_to_qdrant, bind, lift, call, print. rewrite Hpoints.
  destruct (upsert env collection_name points true w) as [[u|e] w1];
    reflexivity.
Qed.

Lemma add_to_qdrant_upserts collection_name data_objs embeddings points w :
  comprehension make_point (enumerate 0 (zip data_objs embeddings)) =
    Return points ->
  upserts (trace_of (add_to_qdrant env collection_name data_objs
                                   embeddings w)) =
  [(collection_name, points, true)].
Proof.
  intros Hpoints. rewrite (add_to_qdrant_run _ _ _ _ w Hpoints).
  destruct (fst (upsert env collection_name points true w)); reflexivity.
Qed.

(** C1: for records and embeddings of the same length, [add_to_qdrant]
    issues exactly one upsert call (with wait set) carrying as many points as
    there are records; the point at position [i] has identifier [i], the
    vector [embeddings[i]] under the name "text" and the payload made of the
    record's lyric under "text" and the record's id under "id". *)
Theorem add_to_qdrant_one_upsert_by_position
    collection_name (data_objs : list (gmap string pyval))
    (embeddings : list vector) w :
  length data_objs = length embeddings ->
  Forall well_formed data_objs ->
  exists points,
    upserts (trace_of (add_to_qdrant env collection_name data_objs
                                     embeddings w)) =
      [(collection_name, points, true)] /\
    length points = length data_objs /\
    forall (i : nat) data_obj embedding,
      data_objs !! i = Some data_obj -> embeddings !! i = Some embedding ->
      exists lyric id,
        data_obj !! "lyric" = Some lyric /\ data_obj !! "id" = Some id /\
        points !! i =
        Some {| ps_id := Z.of_nat i;
                ps_vector := {[ "text" := embedding ]};
                ps_payload := {[ "text" := lyric; "id" := id ]} |}.
Proof.
  intros Hlen Hwf.
  destruct (points_built data_objs embeddings 0) as (points & Hrun & Hn & Hat).
  { intros i d Hd _. rewrite Forall_forall in Hwf. apply Hwf.
    apply list_elem_of_lookup. eauto. }
  exists points.
  split; [apply add_to_qdrant_upserts; exact Hrun|].
  split; [rewrite Hn, Hlen; apply Nat.min_id|].
  exact Hat.
Qed.

(** C9: lengths that differ are not an error.  The records are paired with
    the embeddings position by position up to the shorter length, exactly
    that many points are built and upserted in one call, and the outcome is
    the store's answer to that call. *)
Theorem add_to_qdrant_truncates_to_shorter
    collection_name (data_objs : list (gmap string pyval))
    (embeddings : list vector) w :
  length data_objs <> length embeddings ->
  (forall (i : nat) data_obj,
      data_objs !! i = Some data_obj -> (i < length embeddings)%nat ->
      well_formed data_obj) ->
  exists points,
    let run := add_to_qdrant env collection_name data_objs embeddings w in
    upserts (trace_of run) = [(collection_name, points, true)] /\
    length points = Nat.min (length data_objs) (length embeddings) /\
    (forall (i : nat) data_obj embedding,
      data_objs !! i = Some data_obj -> embeddings !! i = Some embedding ->
      exists lyric id,
        data_obj !! "lyric" = Some lyric /\ data_obj !! "id" = Some id /\
        points !! i =
        Some {| ps_id := Z.of_nat i;
                ps_vector := {[ "text" := embedding ]};
                ps_payload := {[ "text" := lyric; "id" := id ]} |}) /\
    result_of run =
      match fst (upsert env collection_name points true w) with
      | Return _ => Return tt
      | Raise e => Raise e
      end.
Proof.
  intros _ Hwf.
  destruct (points_built data_objs embeddings 0 Hwf)
    as (points & Hrun & Hn & Hat).
  exists points. cbv zeta.
  split; [apply add_to_qdrant_upserts; exact Hrun|].
  split; [exact Hn|].
  split; [exact Hat|].
  rewrite (add_to_qdrant_run _ _ _ _ w Hrun).
  destruct (fst (upsert env collection_name points true w)); reflexivity.
Qed.

(** A record without "lyric" stops the comprehension with [KeyError] before
    any call to the store. *)
Lemma add_to_qdrant_missing_field collection_name
    (data_obj : gmap string pyval) rest embedding embeddings w :
  data_obj !! "lyric" = None ->
  add_to_qdrant env collection_name (data_obj :: rest)
                (embedding :: embeddings) w =
  (Raise (KeyError "lyric"), w, []).
Proof.
  intros Hl. unfold add_to_qdrant, bind, lift.
  cbn [zip_with enumerate comprehension make_point].
  unfold getitem. rewrite Hl. reflexivity.
Qed.

End AddToQdrant.

Lemma add_to_qdrant_one_upsert_by_position_witness :
  let data_objs := [Memory.record7; Memory.record8] in
  let embeddings := [[0.5%float]; [0.25%float]] in
  length data_objs = length embeddings /\
  Forall well_formed data_objs /\
  exists points,
    upserts (trace_of (add_to_qdrant Memory.services "lyrics" data_objs
                                     embeddings Memory.fresh)) =
      [("lyrics", points, true)] /\
    length points = length data_objs /\
    forall (i : nat) data_obj embedding,
      data_objs !! i = Some data_obj -> embeddings !! i = Some embedding ->
      exists lyric id,
        data_obj !! "lyric" = Some lyric /\ data_obj !! "id" = Some id /\
        points !! i =
        Some {| ps_id := Z.of_nat i;
                ps_vector := {[ "text" := embedding ]};
                ps_payload := {[ "text" := lyric; "id" := id ]} |}.
Proof.
  intros data_objs embeddings.
  assert (Hwf : Forall well_formed data_objs).
  { repeat apply Forall_cons_2; try apply Forall_nil_2;
      split; eexists; reflexivity. }
  split; [reflexivity|]. split; [exact Hwf|].
  apply (add_to_qdrant_one_upsert_by_position
           Memory.services "lyrics" data_objs embeddings Memory.fresh
           eq_refl Hwf).
Defined.

Lemma add_to_qdrant_truncates_to_shorter_witness :
  let data_objs := [Memory.record7; Memory.record8] in
  let embeddings := [[0.5%float]] in
  length data_objs <> length embeddings /\
  exists points,
    let run := add_to_qdrant Memory.services "lyrics" data_objs embeddings
                             Memory.fresh in
    upserts (trace_of run) = [("lyrics", points, true)] /\
    length points = Nat.min (length data_objs) (length embeddings) /\
    (forall (i : nat) data_obj embedding,
      data_objs !! i = Some data_obj -> embeddings !! i = Some embedding ->
      exists lyric id,
        data_obj !! "lyric" = Some lyric /\ data_obj !! "id" = Some id /\
        points !! i =
        Some {| ps_id := Z.of_nat i;
                ps_vector := {[ "text" := embedding ]};
                ps_payload := {[ "text" := lyric; "id" := id ]} |}) /\
    result_of run =
      match fst (upsert Memory.services "lyrics" points true Memory.fresh) with
      | Return _ => Return tt
      | Raise e => Raise e
      end.
Proof.
  intros data_objs embeddings.
  assert (Hne : length data_objs <> length embeddings) by (simpl; lia).
  split; [exact Hne|].
  apply (add_to_qdrant_truncates_to_shorter
           Memory.services "lyrics" data_objs embeddings Memory.fresh Hne).
  intros [|i] d Hd Hlt.
  - injection Hd as <-. split; eexists; reflexivity.
  - simpl in Hlt. lia.
Defined.

Example add_to_qdrant_truncates_example :
  add_to_qdrant Memory.services "lyrics" [Memory.record7; Memory.record8]
                [[0.5%float]] Memory.fresh =
  (Return tt,
   {[ "lyrics" :=
        {[ 0 := {| ps_id := 0;
                   ps_vector := {[ "text" := [0.5%float] ]};
                   ps_payload := {[ "text" := VStr "X"; "id" := VInt 7 ]} |} ]} ]},
   [EUpsert "lyrics"
      [ {| ps_id := 0;
           ps_vector := {[ "text" := [0.5%float] ]};
           ps_payload := {[ "text" := VStr "X"; "id" := VInt 7 ]} |} ] true;
    EPrint (MsgUploaded 1 "lyrics")]).
Proof. vm_compute. reflexivity. Qed.

(** ** setup_qdrant_collection: one attempt *)

Lemma contains_In (l : list string) (x : string) :
  contains l x = true <-> In x l.
Proof.
  unfold contains. rewrite existsb_exists. split.
  - intros (y & Hy & Heq). apply String.eqb_eq in Heq. now subst y.
  - intros Hx. exists x. split; [exact Hx|apply String.eqb_refl].
Qed.

Lemma contains_not_In (l : list string) (x : string) :
  contains l x = false <-> ~ In x l.
Proof.
  rewrite <- contains_In. destruct (contains l x); split; congruence.
Qed.

Lemma count_app (p : event -> bool) (t1 t2 : list event) :
  count p (t1 ++ t2) = (count p t1 + count p t2)%nat.
Proof. unfold count. now rewrite filter_app, length_app. Qed.

Lemma count_cons (p : event -> bool) (ev : event) (t : list event) :
  count p (ev :: t) = ((if p ev then 1 else 0) + count p t)%nat.
Proof.
  unfold count. destruct (p ev) eqn:Hp.
  - rewrite filter_cons_True by exact Hp. reflexivity.
  - rewrite filter_cons_False by congruence. reflexivity.
Qed.

Lemma count_zero (p : event -> bool) (t : list event) (ev : event) :
  count p t = 0%nat -> In ev t -> p ev = false.
Proof.
  induction t as [|x t IH]; intros Hc Hin; [destruct Hin|].
  rewrite count_cons in Hc. destruct Hin as [->|Hin].
  - destruct (p ev); [discriminate Hc|reflexivity].
  - apply IH; [lia|exact Hin].
Qed.

Section Attempt.

Context {W : Type} (env : Services W).
Variables (collection_name : string) (vector_size max_retries : Z).

Local Abbreviation inner_try :=
  (delete_if_exists env collection_name max_retries).
Local Abbreviation outer_try :=
  (attempt_body env collection_name vector_size max_retries).

(** The inner [try] swallows every failure of the listing and of the
    deletion. *)
Lemma delete_if_exists_returns attempt w :
  result_of (inner_try attempt w) = Return tt.
Proof.
  unfold delete_if_exists, try_except, bind, call, do_sleep,
    print, ret.
  destruct (get_collections env w) as [[listing|e] w1]; [|reflexivity].
  destruct (contains (collection_names listing) collection_name);
    [|reflexivity].
  destruct (delete_collection env collection_name w1) as [[u|e] w2];
    reflexivity.
Qed.

(** What the inner [try] does, by the answer of the listing. *)
Lemma delete_if_exists_trace attempt w :
  trace_of (inner_try attempt w) =
  match get_collections env w with
  | (Return listing, w1) =>
      if contains (collection_names listing) collection_name then
        [EGetCollections;
         EPrint (MsgDeleting collection_name (Z.of_nat attempt + 1)
                             max_retries);
         EDeleteCollection collection_name] ++
        match fst (delete_collection env collection_name w1) with
        | Return _ => [ESleep 2]
        | Raise e => [EPrint (MsgCheckWarning e)]
        end
      else [EGetCollections]
  | (Raise e, _) => [EGetCollections; EPrint (MsgCheckWarning e)]
  end.
Proof.
  unfold delete_if_exists, try_except, bind, call, do_sleep,
    print, ret.
  destruct (get_collections env w) as [[listing|e] w1]; [|reflexivity].
  destruct (contains (collection_names listing) collection_name);
    [|reflexivity].
  destruct (delete_collection env collection_name w1) as [[u|e] w2];
    reflexivity.
Qed.

(** Every attempt reaches the creation: its trace is the trace of the inner
    [try], the creation message and call, and what follows. *)
Lemma attempt_body_trace attempt w :
  exists rest,
    trace_of (outer_try attempt w) =
      trace_of (inner_try attempt w) ++
      [EPrint (MsgCreating collection_name vector_size);
       ECreateCollection collection_name (vectors_config vector_size)] ++
      rest /\
    count is_create rest = 0%nat /\ count is_delete rest = 0%nat.
Proof.
  pose proof (delete_if_exists_returns attempt w) as Hret.
  unfold attempt_body, bind at 1.
  destruct (inner_try attempt w) as [[r w1] t1]. cbn in Hret.
  subst r. unfold bind, print, call, raise.
  destruct (create_collection env collection_name
              (vectors_config vector_size) w1) as [[u|e] w2].
  - destruct (get_collections env w2) as [[listing|e] w3].
    + destruct (contains (collection_names listing) collection_name);
        eexists; (split; [reflexivity|split; reflexivity]).
    + eexists; (split; [reflexivity|split; reflexivity]).
  - eexists; (split; [cbn [trace_of snd]; rewrite app_nil_r; reflexivity|]).
    split; reflexivity.
Qed.

(** C7: in every attempt, [delete_collection] is called only when the
    listing was obtained and contains the collection name (and then on that
    name); when the listing does not contain the name, an empty listing
    included, the attempt makes no deletion call and goes from the listing
    straight to the creation. *)
Theorem delete_only_when_listed attempt w :
  let run := outer_try attempt w in
  (forall n, In (EDeleteCollection n) (trace_of run) ->
     n = collection_name /\
     exists listing w1,
       get_collections env w = (Return listing, w1) /\
       In collection_name (collection_names listing)) /\
  (forall listing w1,
     get_collections env w = (Return listing, w1) ->
     ~ In collection_name (collection_names listing) ->
     count is_delete (trace_of run) = 0%nat /\
     exists rest,
       trace_of run =
         [EGetCollections;
          EPrint (MsgCreating collection_name vector_size);
          ECreateCollection collection_name (vectors_config vector_size)]
         ++ rest).
Proof.
  intros run. subst run.
  destruct (attempt_body_trace attempt w) as (rest & Htrace & _ & Hrest).
  rewrite Htrace, delete_if_exists_trace. split.
  - intros n Hin. apply in_app_or in Hin. destruct Hin as [Hin|Hin].
    + destruct (get_collections env w) as [[listing|e] w1].
      * destruct (contains (collection_names listing) collection_name)
          eqn:Hlisted.
        -- split.
           ++ destruct Hin as [Hin|[Hin|[Hin|Hin]]]; try discriminate Hin.
              ** now injection Hin.
              ** destruct (fst (delete_collection env collection_name w1));
                   destruct Hin as [Hin|[]]; discriminate Hin.
           ++ exists listing, w1. split; [reflexivity|].
              now apply contains_In.
        -- destruct Hin as [Hin|[]]. discriminate Hin.
      * destruct Hin as [Hin|[Hin|[]]]; discriminate Hin.
    + destruct Hin as [Hin|[Hin|Hin]]; try discriminate Hin.
      pose proof (count_zero _ _ _ Hrest Hin) as Hno. discriminate Hno.
  - intros listing w1 Hlist Hnot. rewrite Hlist.
    apply contains_not_In in Hnot. rewrite Hnot. split.
    + rewrite !count_app, Hrest. reflexivity.
    + exists rest. reflexivity.
Qed.

End Attempt.

Lemma delete_only_when_listed_witness :
  (let run := attempt_body Memory.services "lyrics" 2 3 0 Memory.fresh in
   In (EDeleteCollection "lyrics") (trace_of run) /\
   "lyrics" = "lyrics" /\
   exists listing w1,
     get_collections Memory.services Memory.fresh = (Return listing, w1) /\
     In "lyrics" (collection_names listing)) /\
  (let run := attempt_body Memory.services "lyrics" 2 3 0 ∅ in
   get_collections Memory.services ∅ = (Return (Memory.listing ∅), ∅) /\
   ~ In "lyrics" (collection_names (Memory.listing ∅)) /\
   count is_delete (trace_of run) = 0%nat /\
   exists rest,
     trace_of run =
       [EGetCollections;
        EPrint (MsgCreating "lyrics" 2);
        ECreateCollection "lyrics" (vectors_config 2)] ++ rest).
Proof.
  split.
  - assert (Hin : In (EDeleteCollection "lyrics")
                     (trace_of (attempt_body Memory.services "lyrics" 2 3 0
                                             Memory.fresh))).
    { vm_compute. right. right. left. reflexivity. }
    split; [exact Hin|].
    exact (proj1 (delete_only_when_listed Memory.services "lyrics" 2 3
                    0%nat Memory.fresh) "lyrics" Hin).
  - assert (Hnot : ~ In "lyrics" (collection_names (Memory.listing ∅))).
    { vm_compute. intros []. }
    split; [reflexivity|]. split; [exact Hnot|].
    exact (proj2 (delete_only_when_listed Memory.services "lyrics" 2 3
                    0%nat ∅) (Memory.listing ∅) ∅ eq_refl Hnot).
Defined.

(** ** setup_qdrant_collection: the retry loop *)

Section Retry.

Context {W : Type} (env : Services W).
Variables (collection_name : string) (vector_size max_retries : Z).

Local Abbreviation outer_try :=
  (attempt_body env collection_name vector_size max_retries).
Local Abbreviation one_iteration :=
  (iteration env collection_name vector_size max_retries).
Local Abbreviation last_handler :=
  (surface_last_error env collection_name max_retries (A := loop_ctl)).
Local Abbreviation start_of :=
  (world_before env collection_name vector_size max_retries).
Local Abbreviation iteration_at :=
  (iteration_run env collection_name vector_size max_retries).

Lemma dump_collections_returns w :
  result_of (dump_collections env w) = Return tt.
Proof.
  unfold dump_collections, try_except, bind, call, print.
  destruct (get_collections env w) as [[listing|e] w1]; reflexivity.
Qed.

Lemma force_cleanup_returns w :
  result_of (force_cleanup env collection_name w) = Return tt.
Proof.
  unfold force_cleanup, try_except, bind, call, call_total, print, ret.
  destruct (getcwd env w) as [[cwd|e] w1]; [|reflexivity].
  destruct (path_exists env _ w1) as [[|] w2]; [|reflexivity].
  destruct (rmtree env _ w2) as [[u|e] w3]; reflexivity.
Qed.

(** Whatever the dump and the cleanup do, the handler of the last attempt
    ends in the exception it handles. *)
Lemma surface_last_error_raises e w :
  result_of (last_handler e w) = Raise e.
Proof.
  pose proof (dump_collections_returns w) as Hdump.
  unfold surface_last_error, bind, print, raise.
  destruct (dump_collections env w) as [[r1 w1] t1]. cbn in Hdump. subst r1.
  pose proof (force_cleanup_returns w1) as Hclean.
  destruct (force_cleanup env collection_name w1) as [[r2 w2] t2].
  cbn in Hclean. subst r2. reflexivity.
Qed.

Lemma surface_last_error_no_create e w :
  count is_create (trace_of (last_handler e w)) = 0%nat.
Proof.
  unfold surface_last_error, dump_collections, force_cleanup, try_except,
    bind, call, call_total, print, raise, ret.
  destruct (get_collections env w) as [[listing|e1] w1];
    (destruct (getcwd env w1) as [[cwd|e2] w2]; [|reflexivity]);
    (destruct (path_exists env _ w2) as [[|] w3]; [|reflexivity]);
    destruct (rmtree env _ w3) as [[u|e3] w4]; reflexivity.
Qed.

(** The backoff of attempt [attempt]: [2 ** attempt] seconds are within
    what [time.sleep] accepts up to attempt 33, and beyond it from attempt
    34 on. *)
Lemma sleep_accepted (attempt : nat) :
  (attempt <= 33)%nat -> 0 <= 2 ^ Z.of_nat attempt <= sleep_limit.
Proof.
  intros Hle. split; [apply Z.pow_nonneg; lia|].
  transitivity (2 ^ 33); [apply Z.pow_le_mono_r; lia|].
  unfold sleep_limit. vm_compute. discriminate.
Qed.

Lemma sleep_refused (attempt : nat) :
  (34 <= attempt)%nat -> sleep_limit < 2 ^ Z.of_nat attempt.
Proof.
  intros Hle. apply Z.lt_le_trans with (2 ^ 34).
  - unfold sleep_limit. vm_compute. reflexivity.
  - apply Z.pow_le_mono_r; lia.
Qed.

Lemma backoff_sleeps attempt e w :
  (attempt <= 33)%nat ->
  backoff env attempt e w =
    (Return tt, sleep env (2 ^ Z.of_nat attempt) w,
     [EPrint (MsgRetrying (Z.of_nat attempt + 1) e (2 ^ Z.of_nat attempt));
      ESleep (2 ^ Z.of_nat attempt)]).
Proof.
  intros Hle. destruct (sleep_accepted attempt Hle) as [Hlow Hhigh].
  unfold backoff, bind, print, do_sleep.
  apply Z.ltb_ge in Hlow, Hhigh. rewrite Hlow, Hhigh. reflexivity.
Qed.

(** From attempt 34 on the sleep of line 136 is refused: the retry message
    is printed and [OverflowError] leaves the handler. *)
Lemma backoff_overflows attempt e w :
  (34 <= attempt)%nat ->
  backoff env attempt e w =
    (Raise OverflowError, w,
     [EPrint (MsgRetrying (Z.of_nat attempt + 1) e
                          (2 ^ Z.of_nat attempt))]).
Proof.
  intros Hle. pose proof (sleep_refused attempt Hle) as Hhigh.
  assert (Hlow : 0 <= 2 ^ Z.of_nat attempt) by (apply Z.pow_nonneg; lia).
  unfold backoff, bind, print, do_sleep.
  apply Z.ltb_ge in Hlow. apply Z.ltb_lt in Hhigh.
  rewrite Hlow, Hhigh. reflexivity.
Qed.

(** A failed attempt that is not the last one and whose backoff is
    accepted: the handler prints the retry message, sleeps [2 ** attempt]
    and the loop goes on. *)
Lemma iteration_retries attempt w e :
  result_of (outer_try attempt w) = Raise e ->
  Z.of_nat attempt <> max_retries - 1 ->
  (attempt <= 33)%nat ->
  one_iteration attempt w =
    (Return Continue,
     sleep env (2 ^ Z.of_nat attempt) (world_of (outer_try attempt w)),
     trace_of (outer_try attempt w) ++
     [EPrint (MsgRetrying (Z.of_nat attempt + 1) e (2 ^ Z.of_nat attempt));
      ESleep (2 ^ Z.of_nat attempt)]).
Proof.
  intros Hfail Hnot Hle. unfold iteration, try_except, bind.
  destruct (outer_try attempt w) as [[r w1] t1]. cbn in Hfail. subst r.
  apply Z.eqb_neq in Hnot. rewrite Hnot, (backoff_sleeps _ _ _ Hle).
  reflexivity.
Qed.

(** A failed attempt that is not the last one and whose backoff is
    refused: the iteration ends in [OverflowError], after the retry
    message. *)
Lemma iteration_overflows attempt w e :
  result_of (outer_try attempt w) = Raise e ->
  Z.of_nat attempt <> max_retries - 1 ->
  (34 <= attempt)%nat ->
  one_iteration attempt w =
    (Raise OverflowError, world_of (outer_try attempt w),
     trace_of (outer_try attempt w) ++
     [EPrint (MsgRetrying (Z.of_nat attempt + 1) e
                          (2 ^ Z.of_nat attempt))]).
Proof.
  intros Hfail Hnot Hle. unfold iteration, try_except, bind.
  destruct (outer_try attempt w) as [[r w1] t1]. cbn in Hfail. subst r.
  apply Z.eqb_neq in Hnot. rewrite Hnot, (backoff_overflows _ _ _ Hle).
  reflexivity.
Qed.

(** A failed last attempt: the handler ends in the exception of the
    attempt. *)
Lemma iteration_surfaces attempt w e :
  result_of (outer_try attempt w) = Raise e ->
  Z.of_nat attempt = max_retries - 1 ->
  result_of (one_iteration attempt w) = Raise e /\
  trace_of (one_iteration attempt w) =
    trace_of (outer_try attempt w) ++
    trace_of (last_handler e (world_of (outer_try attempt w))).
Proof.
  intros Hfail Hlast. unfold iteration, try_except, bind.
  destruct (outer_try attempt w) as [[r w1] t1]. cbn in Hfail. subst r.
  apply Z.eqb_eq in Hlast. rewrite Hlast.
  pose proof (surface_last_error_raises e w1) as Hraise.
  cbn [world_of trace_of fst snd].
  destruct (last_handler e w1) as [[r2 w2] t2]. cbn in Hraise. subst r2.
  split; reflexivity.
Qed.

(** An attempt that reaches line 104 ends the function. *)
Lemma iteration_succeeds attempt w :
  result_of (outer_try attempt w) = Return tt ->
  one_iteration attempt w =
    (Return ReturnNone, world_of (outer_try attempt w),
     trace_of (outer_try attempt w)).
Proof.
  intros Hok. unfold iteration, try_except, bind, ret.
  destruct (outer_try attempt w) as [[r w1] t1]. cbn in Hok. subst r.
  cbn. now rewrite app_nil_r.
Qed.

Lemma attempt_body_one_create attempt w :
  count is_create (trace_of (outer_try attempt w)) = 1%nat.
Proof.
  destruct (attempt_body_trace env collection_name vector_size max_retries
              attempt w) as (rest & Htrace & Hrest & _).
  rewrite Htrace, !count_app, Hrest, delete_if_exists_trace.
  destruct (get_collections env w) as [[listing|e] w1]; [|reflexivity].
  destruct (contains (collection_names listing) collection_name);
    [|reflexivity].
  destruct (fst (delete_collection env collection_name w1)); reflexivity.
Qed.

(** Every iteration, whatever its end, calls [create_collection] once. *)
Lemma iteration_one_create attempt w :
  count is_create (trace_of (one_iteration attempt w)) = 1%nat.
Proof.
  destruct (result_of (outer_try attempt w)) as [[]|e] eqn:Hres.
  - rewrite (iteration_succeeds _ _ Hres). apply attempt_body_one_create.
  - destruct (Z.eq_dec (Z.of_nat attempt) (max_retries - 1)) as [Hlast|Hnot].
    + destruct (iteration_surfaces _ _ _ Hres Hlast) as [_ ->].
      rewrite count_app, attempt_body_one_create,
        surface_last_error_no_create. reflexivity.
    + destruct (le_lt_dec attempt 33) as [Hle|Hgt].
      * rewrite (iteration_retries _ _ _ Hres Hnot Hle).
        cbn [trace_of snd]. rewrite count_app, attempt_body_one_create.
        reflexivity.
      * rewrite (iteration_overflows _ _ _ Hres Hnot Hgt).
        cbn [trace_of snd]. rewrite count_app, attempt_body_one_create.
        reflexivity.
Qed.

(** The trace of an iteration starts with the trace of its [try] body, and
    that one with the listing of line 78. *)
Lemma iteration_starts_with_attempt attempt w :
  exists rest,
    trace_of (one_iteration attempt w) =
      trace_of (outer_try attempt w) ++ rest.
Proof.
  destruct (result_of (outer_try attempt w)) as [[]|e] eqn:Hres.
  - rewrite (iteration_succeeds _ _ Hres). exists []. cbn [trace_of snd].
    now rewrite app_nil_r.
  - destruct (Z.eq_dec (Z.of_nat attempt) (max_retries - 1)) as [Hlast|Hnot].
    + destruct (iteration_surfaces _ _ _ Hres Hlast) as [_ ->].
      eexists. reflexivity.
    + destruct (le_lt_dec attempt 33) as [Hle|Hgt].
      * rewrite (iteration_retries _ _ _ Hres Hnot Hle).
        eexists. reflexivity.
      * rewrite (iteration_overflows _ _ _ Hres Hnot Hgt).
        eexists. reflexivity.
Qed.

Lemma attempt_starts_with_listing attempt w :
  exists rest, trace_of (outer_try attempt w) = EGetCollections :: rest.
Proof.
  destruct (attempt_body_trace env collection_name vector_size max_retries
              attempt w) as (rest & Htrace & _).
  rewrite Htrace, delete_if_exists_trace.
  destruct (get_collections env w) as [[listing|e] w1];
    [destruct (contains (collection_names listing) collection_name)|];
    eexists; reflexivity.
Qed.

Lemma loop_starts_with_attempt (n a : nat) w :
  (0 < n)%nat ->
  exists rest,
    trace_of (for_attempts one_iteration (seq a n) w) =
      trace_of (outer_try a w) ++ rest.
Proof.
  intros Hpos. destruct n as [|n]; [lia|].
  destruct (iteration_starts_with_attempt a w) as [h Hh].
  cbn [seq for_attempts]. unfold bind.
  destruct (one_iteration a w) as [[[[|]|e] w1] t1];
    cbn [trace_of snd] in Hh; subst t1.
  - destruct (for_attempts one_iteration (seq (S a) n) w1) as [[r w2] t2].
    cbn [trace_of snd]. rewrite <- app_assoc. eexists. reflexivity.
  - cbn [trace_of snd ret]. rewrite <- app_assoc. eexists. reflexivity.
  - cbn [trace_of snd]. eexists. reflexivity.
Qed.

(** The loop as far as iteration [a + j], when the attempts before it fail
    and their backoffs are accepted: the iterations [a], ..., [a + j - 1]
    are run in full, and the loop goes on from iteration [a + j]. *)
Lemma loop_reaches w :
  every_attempt_fails env collection_name vector_size max_retries w ->
  forall j a n,
    (a + n = Z.to_nat max_retries)%nat -> (j < n)%nat -> (a + j <= 34)%nat ->
    let rest := for_attempts one_iteration (seq (a + j) (n - j))
                             (start_of (a + j) w) in
    for_attempts one_iteration (seq a n) (start_of a w) =
      (result_of rest, world_of rest,
       concat (map (fun attempt => trace_of (iteration_at attempt w))
                   (seq a j)) ++ trace_of rest).
Proof.
  intros Hall j. induction j as [|j IH]; intros a n Hsum Hlt Hle rest.
  - subst rest. rewrite Nat.add_0_r, Nat.sub_0_r. cbn [seq map concat app].
    apply run_eta.
  - destruct n as [|n]; [lia|].
    destruct (Hall a ltac:(lia)) as [e He].
    unfold attempt_fails_with, attempt_run in He.
    pose proof (iteration_retries _ _ _ He ltac:(lia) ltac:(lia)) as Hit.
    assert (Htr : trace_of (iteration_at a w) =
                  trace_of (outer_try a (start_of a w)) ++
                  [EPrint (MsgRetrying (Z.of_nat a + 1) e (2 ^ Z.of_nat a));
                   ESleep (2 ^ Z.of_nat a)])
      by (unfold iteration_run; rewrite Hit; reflexivity).
    cbn [seq for_attempts map concat].
    rewrite (bind_return _ _ _ _ _ _ Hit).
    specialize (IH (S a) n ltac:(lia) ltac:(lia) ltac:(lia)).
    cbn zeta in IH. cbn [world_before] in IH. rewrite Hit in IH.
    cbn [world_of fst snd] in IH. rewrite IH.
    cbn [result_of world_of trace_of fst snd].
    subst rest.
    replace (a + S j)%nat with (S a + j)%nat by lia.
    replace (S n - S j)%nat with (n - j)%nat by lia.
    rewrite Htr, <- !app_assoc. reflexivity.
Qed.

(** The loop when every attempt fails and there are at most 35 of them, from
    iteration [a] on: it ends as its last iteration ends, and its trace is
    the traces of the iterations it runs, one after the other. *)
Lemma loop_when_every_attempt_fails w :
  max_retries <= 35 ->
  every_attempt_fails env collection_name vector_size max_retries w ->
  forall n a, (a + n = Z.to_nat max_retries)%nat -> (0 < n)%nat ->
    let run := for_attempts one_iteration (seq a n) (start_of a w) in
    (exists e,
       result_of (iteration_at (Z.to_nat max_retries - 1) w) = Raise e /\
       result_of run = Raise e) /\
    trace_of run =
      concat (map (fun attempt => trace_of (iteration_at attempt w))
                  (seq a n)).
Proof.
  intros Hbound Hall n. induction n as [|n IH]; intros a Hsum Hpos; [lia|].
  destruct (Hall a ltac:(lia)) as [e He].
  unfold attempt_fails_with, attempt_run in He.
  cbn [seq for_attempts map concat].
  destruct (Nat.eq_dec n 0%nat) as [->|Hn].
  - assert (Hlast : Z.of_nat a = max_retries - 1) by lia.
    destruct (iteration_surfaces _ _ _ He Hlast) as [Hres Htr].
    rewrite (bind_raise _ _ _ e
               (world_of (one_iteration a (start_of a w)))
               (trace_of (one_iteration a (start_of a w))))
      by (rewrite <- Hres; apply run_eta).
    replace (Z.to_nat max_retries - 1)%nat with a by lia.
    split; [exists e; split; [exact Hres|reflexivity]|].
    cbn [seq map concat trace_of snd]. now rewrite app_nil_r.
  - assert (Hnot : Z.of_nat a <> max_retries - 1) by lia.
    pose proof (iteration_retries _ _ _ He Hnot ltac:(lia)) as Hit.
    rewrite (bind_return _ _ _ _ _ _ Hit).
    cbn [result_of world_of trace_of fst snd].
    destruct (IH (S a) ltac:(lia) ltac:(lia)) as [IHr IHt].
    cbn [world_before] in IHr, IHt. rewrite Hit in IHr, IHt.
    cbn [world_of fst snd] in IHr, IHt.
    split; [exact IHr|].
    rewrite IHt.
    change (iteration_at a w) with (one_iteration a (start_of a w)).
    rewrite Hit. reflexivity.
Qed.

Lemma creates_of_iterations w (attempts : list nat) :
  count is_create
    (concat (map (fun attempt => trace_of (iteration_at attempt w))
                 attempts)) = length attempts.
Proof.
  induction attempts as [|a attempts IH]; [reflexivity|].
  cbn [map concat length]. rewrite count_app, IH.
  unfold iteration_run. now rewrite iteration_one_create.
Qed.

(** Without any attempt to make the loop body never runs: the function
    returns at once, having called nothing. *)
Lemma setup_without_attempts w :
  max_retries <= 0 ->
  setup_qdrant_collection env collection_name vector_size max_retries w =
    (Return tt, w, []).
Proof.
  intros Hmax. unfold setup_qdrant_collection, range.
  replace (Z.to_nat max_retries) with 0%nat by lia. reflexivity.
Qed.

(** C4, as the code has it: with at most 35 attempts allowed (so that every
    backoff is a sleep that [time.sleep] accepts), when each of the
    [max_retries] attempts fails, the provisioner runs exactly [max_retries]
    iterations (one creation call each), every iteration but the last goes
    on to the next one, the run ends in the exception of the last attempt,
    and the handler of the last attempt ends in that exception from any
    world, that is, whatever the collection dump and the on-disk cleanup
    do. *)
Theorem setup_raises_last_error_after_max_retries w :
  0 < max_retries -> max_retries <= 35 ->
  every_attempt_fails env collection_name vector_size max_retries w ->
  let run :=
    setup_qdrant_collection env collection_name vector_size max_retries w in
  let final := (Z.to_nat max_retries - 1)%nat in
  (exists e,
     attempt_fails_with env collection_name vector_size max_retries
                        final w e /\
     result_of run = Raise e) /\
  trace_of run =
    concat (map (fun attempt => trace_of (iteration_at attempt w))
                (range max_retries)) /\
  length (range max_retries) = Z.to_nat max_retries /\
  count is_create (trace_of run) = Z.to_nat max_retries /\
  (forall attempt, (attempt < final)%nat ->
     result_of (iteration_at attempt w) = Return Continue) /\
  (forall e w', result_of (last_handler e w') = Raise e).
Proof.
  intros Hmax Hbound Hall run final. subst run final.
  destruct (loop_when_every_attempt_fails w Hbound Hall
              (Z.to_nat max_retries) 0%nat)
    as [Hres Htrace]; [lia|lia|].
  cbn [world_before] in Hres, Htrace.
  unfold setup_qdrant_collection, range.
  destruct Hres as (e' & Hlast & Hres).
  split.
  { destruct (Hall (Z.to_nat max_retries - 1)%nat ltac:(lia)) as [e He].
    exists e. split; [exact He|]. rewrite Hres.
    destruct (iteration_surfaces _ _ _ He) as [Hraise _]; [lia|].
    unfold iteration_run in Hlast. rewrite Hraise in Hlast.
    now injection Hlast as ->. }
  split; [exact Htrace|].
  split; [apply length_seq|].
  split; [rewrite Htrace, creates_of_iterations; apply length_seq|].
  split; [|apply surface_last_error_raises].
  intros attempt Hlt.
  destruct (Hall attempt ltac:(lia)) as [e He].
  unfold iteration_run.
  rewrite (iteration_retries _ _ _ He); [reflexivity|lia|lia].
Qed.

(** C2, as the code has it: in the run of the provisioner, when every
    attempt fails, the events of attempt [k] (0-indexed) are followed by the
    retry message, a sleep of [2 ^ k] seconds and then directly the events
    of attempt [k + 1], for every [k] that is not the last attempt and
    whose [2 ^ k] seconds [time.sleep] accepts ([k] at most 33); the run
    itself starts with the listing call of attempt 0, so that nothing is
    slept before attempt 0. *)
Theorem backoff_after_failed_attempt w attempt :
  every_attempt_fails env collection_name vector_size max_retries w ->
  Z.of_nat attempt < max_retries - 1 ->
  (attempt <= 33)%nat ->
  let run :=
    setup_qdrant_collection env collection_name vector_size max_retries w in
  let body :=
    attempt_run env collection_name vector_size max_retries in
  (exists e after,
     attempt_fails_with env collection_name vector_size max_retries
                        attempt w e /\
     trace_of run =
       concat (map (fun earlier => trace_of (iteration_at earlier w))
                   (seq 0 attempt)) ++
       trace_of (body attempt w) ++
       [EPrint (MsgRetrying (Z.of_nat attempt + 1) e
                            (2 ^ Z.of_nat attempt));
        ESleep (2 ^ Z.of_nat attempt)] ++
       trace_of (body (S attempt) w) ++ after) /\
  (exists rest after,
     trace_of (body 0%nat w) = EGetCollections :: rest /\
     trace_of run = trace_of (body 0%nat w) ++ after) /\
  delay_before_attempt env collection_name vector_size max_retries
                       (S attempt) w = Some (2 ^ Z.of_nat attempt).
Proof.
  intros Hall Hlt Hle run body. subst run body.
  destruct (Hall attempt ltac:(lia)) as [e He].
  pose proof (iteration_retries attempt (start_of attempt w) e He
                ltac:(lia) Hle) as Hit.
  unfold setup_qdrant_collection, range.
  split; [|split].
  - exists e.
    pose proof (loop_reaches w Hall (S attempt) 0%nat (Z.to_nat max_retries)
                  eq_refl ltac:(lia) ltac:(lia)) as Hrun.
    cbv zeta in Hrun. cbn [Nat.add] in Hrun.
    change (start_of 0 w) with w in Hrun.
    destruct (loop_starts_with_attempt
                (Z.to_nat max_retries - S attempt) (S attempt)
                (start_of (S attempt) w) ltac:(lia)) as [after Hafter].
    exists after. split; [exact He|].
    rewrite Hrun. cbn [trace_of snd]. rewrite Hafter.
    rewrite seq_S, map_app, concat_app. cbn [Nat.add map concat].
    change (iteration_at attempt w)
      with (one_iteration attempt (start_of attempt w)).
    rewrite Hit. cbn [trace_of snd]. rewrite app_nil_r, <- !app_assoc.
    reflexivity.
  - destruct (attempt_starts_with_listing 0%nat w) as [rest Hrest].
    destruct (loop_starts_with_attempt (Z.to_nat max_retries) 0%nat w
                ltac:(lia)) as [after Hafter].
    exists rest, after. split; [exact Hrest|exact Hafter].
  - unfold delay_before_attempt, iteration_run. rewrite Hit.
    cbn [trace_of snd].
    change [EPrint (MsgRetrying (Z.of_nat attempt + 1) e
                                (2 ^ Z.of_nat attempt));
            ESleep (2 ^ Z.of_nat attempt)]
      with ([EPrint (MsgRetrying (Z.of_nat attempt + 1) e
                                 (2 ^ Z.of_nat attempt))] ++
            [ESleep (2 ^ Z.of_nat attempt)]).
    rewrite app_assoc, last_snoc. reflexivity.
Qed.

End Retry.

(** The store that refuses every creation, asked for three attempts: each
    of them fails. *)
Lemma store_down_every_attempt_fails :
  every_attempt_fails Memory.store_down "lyrics" 2 3 ∅.
Proof.
  intros attempt Hlt. exists (ServiceError "connection refused").
  destruct attempt as [|[|[|attempt]]]; [reflexivity..|lia].
Qed.

Example store_down_run :
  setup_qdrant_collection Memory.store_down "lyrics" 2 3 ∅ =
  (Raise (ServiceError "connection refused"), ∅,
   [EGetCollections; EPrint (MsgCreating "lyrics" 2);
    ECreateCollection "lyrics" (vectors_config 2);
    EPrint (MsgRetrying 1 (ServiceError "connection refused") 1);
    ESleep 1;
    EGetCollections; EPrint (MsgCreating "lyrics" 2);
    ECreateCollection "lyrics" (vectors_config 2);
    EPrint (MsgRetrying 2 (ServiceError "connection refused") 2);
    ESleep 2;
    EGetCollections; EPrint (MsgCreating "lyrics" 2);
    ECreateCollection "lyrics" (vectors_config 2);
    EPrint (MsgSetupFailed 3);
    EPrint (MsgErrorDetails (ServiceError "connection refused"));
    EGetCollections; EPrint (MsgCurrentCollections []);
    EPrint MsgForceCleanup; EGetcwd;
    EPathExists "/srv/demo/qdrant_storage/collections/lyrics"]).
Proof. vm_compute. reflexivity. Qed.

(** C2 as stated fails: with three failing attempts nothing is slept before
    attempt 0, and the delay before attempt 1 is 1, not 2. *)
Lemma backoff_before_attempt_is_not_two_to_the_attempt :
  every_attempt_fails Memory.store_down "lyrics" 2 3 ∅ /\
  delay_before_attempt Memory.store_down "lyrics" 2 3 0 ∅ = None /\
  delay_before_attempt Memory.store_down "lyrics" 2 3 1 ∅ = Some 1 /\
  ~ (forall k, (k < 3)%nat ->
       delay_before_attempt Memory.store_down "lyrics" 2 3 k ∅ =
       Some (2 ^ Z.of_nat k)).
Proof.
  split; [apply store_down_every_attempt_fails|].
  split; [reflexivity|]. split; [reflexivity|].
  intros Hclaim. specialize (Hclaim 1%nat ltac:(lia)).
  vm_compute in Hclaim. discriminate Hclaim.
Qed.

Lemma backoff_after_failed_attempt_witness :
  every_attempt_fails Memory.store_down "lyrics" 2 3 ∅ /\
  Z.of_nat 1 < 3 - 1 /\
  (1 <= 33)%nat /\
  let run := setup_qdrant_collection Memory.store_down "lyrics" 2 3 ∅ in
  let body := attempt_run Memory.store_down "lyrics" 2 3 in
  (exists e after,
     attempt_fails_with Memory.store_down "lyrics" 2 3 1 ∅ e /\
     trace_of run =
       concat (map (fun earlier =>
                      trace_of (iteration_run Memory.store_down "lyrics" 2 3
                                              earlier ∅))
                   (seq 0 1)) ++
       trace_of (body 1%nat ∅) ++
       [EPrint (MsgRetrying (Z.of_nat 1 + 1) e (2 ^ Z.of_nat 1));
        ESleep (2 ^ Z.of_nat 1)] ++
       trace_of (body 2%nat ∅) ++ after) /\
  (exists rest after,
     trace_of (body 0%nat ∅) = EGetCollections :: rest /\
     trace_of run = trace_of (body 0%nat ∅) ++ after) /\
  delay_before_attempt Memory.store_down "lyrics" 2 3 2 ∅ =
    Some (2 ^ Z.of_nat 1).
Proof.
  assert (Hlt : Z.of_nat 1 < 3 - 1) by (simpl; lia).
  assert (Hle : (1 <= 33)%nat) by lia.
  split; [apply store_down_every_attempt_fails|].
  split; [exact Hlt|]. split; [exact Hle|].
  apply (backoff_after_failed_attempt Memory.store_down "lyrics" 2 3 ∅ 1%nat
           store_down_every_attempt_fails Hlt Hle).
Defined.

Lemma setup_raises_last_error_after_max_retries_witness :
  0 < 3 /\ 3 <= 35 /\
  every_attempt_fails Memory.store_down "lyrics" 2 3 ∅ /\
  let run := setup_qdrant_collection Memory.store_down "lyrics" 2 3 ∅ in
  let final := (Z.to_nat 3 - 1)%nat in
  (exists e,
     attempt_fails_with Memory.store_down "lyrics" 2 3 final ∅ e /\
     result_of run = Raise e) /\
  trace_of run =
    concat (map (fun attempt =>
                   trace_of (iteration_run Memory.store_down "lyrics" 2 3
                                           attempt ∅))
                (range 3)) /\
  length (range 3) = Z.to_nat 3 /\
  count is_create (trace_of run) = Z.to_nat 3 /\
  (forall attempt, (attempt < final)%nat ->
     result_of (iteration_run Memory.store_down "lyrics" 2 3 attempt ∅) =
     Return Continue) /\
  (forall e w',
     result_of (surface_last_error Memory.store_down "lyrics" 3
                                   (A := loop_ctl) e w') = Raise e).
Proof.
  assert (Hmax : 0 < 3) by lia.
  assert (Hbound : 3 <= 35) by lia.
  split; [exact Hmax|]. split; [exact Hbound|].
  split; [apply store_down_every_attempt_fails|].
  apply (setup_raises_last_error_after_max_retries
           Memory.store_down "lyrics" 2 3 ∅ Hmax Hbound
           store_down_every_attempt_fails).
Defined.

(** The store that refuses every creation makes every attempt fail, whatever
    the attempt and the world. *)
Lemma store_down_attempt_fails max_retries attempt w :
  result_of (attempt_body Memory.store_down "lyrics" 2 max_retries attempt w)
  = Raise (ServiceError "connection refused").
Proof.
  pose proof (delete_if_exists_returns Memory.store_down "lyrics"
                max_retries attempt w) as Hret.
  unfold attempt_body, bind at 1.
  destruct (delete_if_exists Memory.store_down "lyrics" max_retries
                             attempt w) as [[r w1] t1].
  cbn in Hret. subst r. reflexivity.
Qed.

(** C4 as stated fails for 36 attempts: each of them would fail, but the
    backoff of attempt 34 is a sleep of [2 ^ 34] seconds, which is refused;
    the run ends there in [OverflowError], after 35 creation calls and not
    36, and not in the exception of the last attempt. *)
Lemma thirty_six_attempts_end_in_overflow :
  let run := setup_qdrant_collection Memory.store_down "lyrics" 2 36 ∅ in
  0 < 36 /\
  every_attempt_fails Memory.store_down "lyrics" 2 36 ∅ /\
  attempt_fails_with Memory.store_down "lyrics" 2 36 35 ∅
                     (ServiceError "connection refused") /\
  result_of run = Raise OverflowError /\
  count is_create (trace_of run) = 35%nat /\
  ~ (count is_create (trace_of run) = Z.to_nat 36 /\
     exists e,
       attempt_fails_with Memory.store_down "lyrics" 2 36 35 ∅ e /\
       result_of run = Raise e).
Proof.
  intros run.
  assert (Hraise : result_of run = Raise OverflowError)
    by (vm_compute; reflexivity).
  assert (Hcount : count is_create (trace_of run) = 35%nat)
    by (vm_compute; reflexivity).
  split; [lia|].
  split; [intros attempt _; eexists; apply store_down_attempt_fails|].
  split; [apply store_down_attempt_fails|].
  split; [exact Hraise|]. split; [exact Hcount|].
  intros [Hall _]. rewrite Hcount in Hall. discriminate Hall.
Qed.

(** ** main *)

Section Driver.

Context {W : Type} (env : Services W).
Variables (MODEL_NAME COLLECTION_NAME : string).

(** C8: whatever exception the body of the demo raises (while embedding,
    provisioning, ingesting or searching), [main] catches it, prints the
    error and the troubleshooting tips after what was already printed, and
    returns normally; [main] never ends in an exception. *)
Theorem main_never_raises w :
  result_of (main env MODEL_NAME COLLECTION_NAME w) = Return tt /\
  (forall e,
     result_of (demo env MODEL_NAME COLLECTION_NAME w) = Raise e ->
     trace_of (main env MODEL_NAME COLLECTION_NAME w) =
       trace_of (demo env MODEL_NAME COLLECTION_NAME w) ++
       [EPrint (MsgError e); EPrint MsgTipsHeader; EPrint MsgTipModel;
        EPrint MsgTipConnection; EPrint (MsgTipCollection COLLECTION_NAME)]).
Proof.
  unfold main, try_except.
  destruct (demo env MODEL_NAME COLLECTION_NAME w) as [[[[]|e] w1] t1].
  - split; [reflexivity|]. intros e He. discriminate He.
  - split; [reflexivity|]. intros e' He. cbn in He.
    injection He as <-. reflexivity.
Qed.

End Driver.

Lemma main_never_raises_witness :
  result_of (main Memory.provider_down "m" "lyrics" ∅) = Return tt /\
  (forall e,
     result_of (demo Memory.provider_down "m" "lyrics" ∅) = Raise e ->
     trace_of (main Memory.provider_down "m" "lyrics" ∅) =
       trace_of (demo Memory.provider_down "m" "lyrics" ∅) ++
       [EPrint (MsgError e); EPrint MsgTipsHeader; EPrint MsgTipModel;
        EPrint MsgTipConnection; EPrint (MsgTipCollection "lyrics")]).
Proof.
  exact (main_never_raises Memory.provider_down "m" "lyrics" ∅).
Defined.

Example main_provider_down :
  main Memory.provider_down "m" "lyrics" ∅ =
  (Return tt, ∅,
   [EPrint MsgGenerating;
    EEmbeddingsCreate (VStr "說了再見，才發現再也見不到") "m";
    EPrint (MsgEmbeddingError (ServiceError "timeout"));
    EPrint (MsgError (ServiceError "timeout")); EPrint MsgTipsHeader;
    EPrint MsgTipModel; EPrint MsgTipConnection;
    EPrint (MsgTipCollection "lyrics")]).
Proof. vm_compute. reflexivity. Qed.

(** ** Ingestion followed by a query *)

Section RoundTrip.

Context {W : Type} (env : Services W).

Lemma add_to_qdrant_returned collection_name data_objs embeddings w w1 t1 :
  add_to_qdrant env collection_name data_objs embeddings w =
    (Return tt, w1, t1) ->
  exists points,
    comprehension make_point (enumerate 0 (zip data_objs embeddings)) =
      Return points /\
    upserts t1 = [(collection_name, points, true)].
Proof.
  intros Hrun.
  destruct (comprehension make_point
              (enumerate 0 (zip data_objs embeddings)))
    as [points|e] eqn:Hpoints.
  - exists points. split; [reflexivity|].
    rewrite <- (add_to_qdrant_upserts env collection_name data_objs
                  embeddings points w Hpoints), Hrun. reflexivity.
  - unfold add_to_qdrant, bind, lift in Hrun. rewrite Hpoints in Hrun.
    discriminate Hrun.
Qed.

(** C5: a record with id [id] and lyric [lyric] (7 and "X" in the claim)
    ingested at position 0 is written as the point with identifier 0; any
    hit by which the store returns that point to a later query has
    identifier 0 and payload {id, text}, and [search_similar] returns for
    it the result {lyric, id, score}. *)
Theorem ingested_record_comes_back
    collection_name (data_obj : gmap string pyval) rest embedding embeddings
    id lyric w w1 t1 p query limit w2 w3 hits hit :
  data_obj !! "id" = Some id -> data_obj !! "lyric" = Some lyric ->
  add_to_qdrant env collection_name (data_obj :: rest)
                (embedding :: embeddings) w = (Return tt, w1, t1) ->
  point_written_at t1 0 = Some p ->
  search env collection_name ("text", query) limit false true w2 =
    (Return hits, w3) ->
  In hit hits -> stored_as hit p ->
  ps_id p = 0 /\
  sp_id hit = 0 /\
  sp_payload hit = Some {[ "id" := id; "text" := lyric ]} /\
  exists results,
    result_of (search_similar env collection_name query limit w2) =
      Return results /\
    In {[ "lyric" := lyric; "id" := id; "score" := VFloat (sp_score hit) ]}
       results.
Proof.
  intros Hid Hlyric Hadd Hp Hsearch Hin [Hsame Hpayload].
  destruct (add_to_qdrant_returned _ _ _ _ _ _ Hadd)
    as (points & Hpoints & Hups).
  unfold point_written_at in Hp. rewrite Hups in Hp.
  cbn [zip_with enumerate comprehension] in Hpoints.
  rewrite (make_point_ok _ _ _ _ _ Hlyric Hid) in Hpoints.
  cbn [and_then] in Hpoints.
  destruct (comprehension make_point (enumerate 1 (zip rest embeddings)))
    as [others|e]; [|discriminate Hpoints].
  injection Hpoints as <-. injection Hp as <-.
  cbn [ps_id ps_payload] in Hsame, Hpayload.
  assert (Hdict : ({[ "text" := lyric; "id" := id ]} : gmap string pyval) =
                  {[ "id" := id; "text" := lyric ]}).
  { apply insert_insert_ne. discriminate. }
  split; [reflexivity|]. split; [exact Hsame|].
  split; [rewrite Hpayload, Hdict; reflexivity|].
  exists (map project hits).
  rewrite (search_similar_returns env _ _ _ _ _ _ Hsearch).
  split; [reflexivity|].
  rewrite <- (project_full hit _ lyric id Hpayload).
  - apply in_map. exact Hin.
  - now simplify_map_eq.
  - now simplify_map_eq.
Qed.

End RoundTrip.

Lemma ingested_record_comes_back_witness :
  let run := add_to_qdrant Memory.services "lyrics" [Memory.record7]
                           [[0.5%float]] Memory.fresh in
  let p := {| ps_id := 0;
              ps_vector := {[ "text" := [0.5%float] ]};
              ps_payload := {[ "text" := VStr "X"; "id" := VInt 7 ]} |} in
  let hit := Memory.as_hit false true p in
  result_of run = Return tt /\
  point_written_at (trace_of run) 0 = Some p /\
  search Memory.services "lyrics" ("text", [0.25%float]) 2 false true
         (world_of run) = (Return [hit], world_of run) /\
  stored_as hit p /\
  ps_id p = 0 /\
  sp_id hit = 0 /\
  sp_payload hit = Some {[ "id" := VInt 7; "text" := VStr "X" ]} /\
  exists results,
    result_of (search_similar Memory.services "lyrics" [0.25%float] 2
                              (world_of run)) = Return results /\
    In {[ "lyric" := VStr "X"; "id" := VInt 7;
          "score" := VFloat (sp_score hit) ]} results.
Proof.
  intros run p hit.
  assert (Hrun : run = (Return tt, world_of run, trace_of run))
    by (vm_compute; reflexivity).
  assert (Hp : point_written_at (trace_of run) 0 = Some p)
    by (vm_compute; reflexivity).
  assert (Hsearch :
            search Memory.services "lyrics" ("text", [0.25%float]) 2
                   false true (world_of run) = (Return [hit], world_of run))
    by (vm_compute; reflexivity).
  assert (Hstored : stored_as hit p) by (split; reflexivity).
  split; [vm_compute; reflexivity|].
  split; [exact Hp|]. split; [exact Hsearch|]. split; [exact Hstored|].
  apply (ingested_record_comes_back
           Memory.services "lyrics" Memory.record7 [] [0.5%float] []
           (VInt 7) (VStr "X") Memory.fresh (world_of run) (trace_of run)
           p [0.25%float] 2 (world_of run) (world_of run) [hit] hit).
  - reflexivity.
  - reflexivity.
  - exact Hrun.
  - exact Hp.
  - exact Hsearch.
  - left. reflexivity.
  - exact Hstored.
Defined.

(** * Further properties *)

(** ** One attempt of the provisioner, by the answers of the store *)

Section AttemptOutcome.

Context {W : Type} (env : Services W).
Variables (collection_name : string) (vector_size max_retries : Z).

Local Abbreviation inner_try :=
  (delete_if_exists env collection_name max_retries).
Local Abbreviation outer_try :=
  (attempt_body env collection_name vector_size max_retries).
Local Abbreviation config := (vectors_config vector_size).

(** The [try] body after its inner [try]: creation, listing, verification. *)
Lemma attempt_body_run attempt w :
  outer_try attempt w =
  let w1 := world_of (inner_try attempt w) in
  let t1 := trace_of (inner_try attempt w) ++
            [EPrint (MsgCreating collection_name vector_size);
             ECreateCollection collection_name config] in
  match create_collection env collection_name config w1 with
  | (Raise e, w2) => (Raise e, w2, t1)
  | (Return _, w2) =>
      match get_collections env w2 with
      | (Raise e, w3) => (Raise e, w3, t1 ++ [EGetCollections])
      | (Return listing, w3) =>
          if contains (collection_names listing) collection_name then
            (Return tt, w3,
             t1 ++ [EGetCollections; EPrint (MsgCreated collection_name)])
          else
            (Raise (VerifyFailed collection_name), w3,
             t1 ++ [EGetCollections])
      end
  end.
Proof.
  pose proof (delete_if_exists_returns env collection_name max_retries
                attempt w) as Hret.
  unfold attempt_body, bind at 1.
  destruct (inner_try attempt w) as [[r w1] t1]. cbn in Hret. subst r.
  cbn [world_of trace_of fst snd]. unfold bind, print, call, raise.
  destruct (create_collection env collection_name config w1) as [[u|e] w2].
  - destruct (get_collections env w2) as [[listing|e] w3].
    + destruct (contains (collection_names listing) collection_name);
        cbn [app]; now rewrite <- ?app_assoc.
    + cbn [app]. now rewrite <- ?app_assoc.
  - reflexivity.
Qed.

(** X1: an attempt ends in the [return] of line 104 exactly when, after the
    inner [try], the creation is accepted and the listing taken after it
    contains the collection name. *)
Theorem attempt_succeeds_iff_verified attempt w :
  result_of (outer_try attempt w) = Return tt <->
  exists u w2 listing w3,
    create_collection env collection_name config
                      (world_of (inner_try attempt w)) = (Return u, w2) /\
    get_collections env w2 = (Return listing, w3) /\
    In collection_name (collection_names listing).
Proof.
  rewrite attempt_body_run. cbv zeta.
  destruct (create_collection env collection_name config
              (world_of (inner_try attempt w))) as [[u|e] w2].
  - destruct (get_collections env w2) as [[listing|e] w3] eqn:Hlist.
    + destruct (contains (collection_names listing) collection_name)
        eqn:Hlisted.
      * split; [|reflexivity]. intros _.
        exists u, w2, listing, w3.
        split; [reflexivity|]. split; [exact Hlist|].
        now apply contains_In.
      * split; [discriminate|].
        intros (u' & w2' & listing' & w3' & Hc & Hl & Hin).
        injection Hc as <- <-. rewrite Hlist in Hl. injection Hl as <- <-.
        apply contains_In in Hin. congruence.
    + split; [discriminate|].
      intros (u' & w2' & listing' & w3' & Hc & Hl & _).
      injection Hc as <- <-. rewrite Hlist in Hl. discriminate Hl.
  - split; [discriminate|].
    intros (u' & w2' & listing' & w3' & Hc & _). discriminate Hc.
Qed.

(** X2: an accepted creation that the next listing does not show makes the
    attempt fail with the verification error of line 106. *)
Theorem attempt_unverified_creation_fails attempt w u w2 listing w3 :
  create_collection env collection_name config
                    (world_of (inner_try attempt w)) = (Return u, w2) ->
  get_collections env w2 = (Return listing, w3) ->
  ~ In collection_name (collection_names listing) ->
  result_of (outer_try attempt w) = Raise (VerifyFailed collection_name) /\
  world_of (outer_try attempt w) = w3.
Proof.
  intros Hc Hl Hnot. rewrite attempt_body_run. cbv zeta. rewrite Hc, Hl.
  apply contains_not_In in Hnot. rewrite Hnot. split; reflexivity.
Qed.

(** X3: a failure of the listing or of the deletion in the inner [try] does
    not end the attempt: a warning is printed and the attempt goes on to the
    creation, without the pause of line 85. *)
Theorem attempt_survives_check_failure attempt w :
  (forall e w1,
     get_collections env w = (Raise e, w1) ->
     exists rest,
       trace_of (outer_try attempt w) =
         [EGetCollections; EPrint (MsgCheckWarning e);
          EPrint (MsgCreating collection_name vector_size);
          ECreateCollection collection_name config] ++ rest) /\
  (forall listing w1 e w2,
     get_collections env w = (Return listing, w1) ->
     In collection_name (collection_names listing) ->
     delete_collection env collection_name w1 = (Raise e, w2) ->
     exists rest,
       trace_of (outer_try attempt w) =
         [EGetCollections;
          EPrint (MsgDeleting collection_name (Z.of_nat attempt + 1)
                              max_retries);
          EDeleteCollection collection_name;
          EPrint (MsgCheckWarning e);
          EPrint (MsgCreating collection_name vector_size);
          ECreateCollection collection_name config] ++ rest).
Proof.
  destruct (attempt_body_trace env collection_name vector_size max_retries
              attempt w) as (rest & Htrace & _).
  rewrite Htrace, delete_if_exists_trace. split.
  - intros e w1 Hl. rewrite Hl. exists rest. reflexivity.
  - intros listing w1 e w2 Hl Hin Hd. rewrite Hl.
    apply contains_In in Hin. rewrite Hin, Hd. exists rest. reflexivity.
Qed.

(** X4: when the collection is listed and its deletion is accepted, the
    attempt pauses two seconds between the deletion and the creation. *)
Theorem attempt_pauses_after_deletion attempt w listing w1 u w2 :
  get_collections env w = (Return listing, w1) ->
  In collection_name (collection_names listing) ->
  delete_collection env collection_name w1 = (Return u, w2) ->
  exists rest,
    trace_of (outer_try attempt w) =
      [EGetCollections;
       EPrint (MsgDeleting collection_name (Z.of_nat attempt + 1)
                           max_retries);
       EDeleteCollection collection_name;
       ESleep 2;
       EPrint (MsgCreating collection_name vector_size);
       ECreateCollection collection_name config] ++ rest.
Proof.
  intros Hl Hin Hd.
  destruct (attempt_body_trace env collection_name vector_size max_retries
              attempt w) as (rest & Htrace & _).
  rewrite Htrace, delete_if_exists_trace, Hl.
  apply contains_In in Hin. rewrite Hin, Hd. exists rest. reflexivity.
Qed.

End AttemptOutcome.

Lemma attempt_succeeds_iff_verified_witness :
  result_of (attempt_body Memory.services "lyrics" 2 3 0 ∅) = Return tt /\
  exists u w2 listing w3,
    create_collection Memory.services "lyrics" (vectors_config 2)
      (world_of (delete_if_exists Memory.services "lyrics" 3 0 ∅)) =
      (Return u, w2) /\
    get_collections Memory.services w2 = (Return listing, w3) /\
    In "lyrics" (collection_names listing).
Proof.
  assert (Hok : result_of (attempt_body Memory.services "lyrics" 2 3 0 ∅) =
                Return tt) by reflexivity.
  split; [exact Hok|].
  exact (proj1 (attempt_succeeds_iff_verified Memory.services "lyrics" 2 3
                  0%nat ∅) Hok).
Defined.

Lemma attempt_unverified_creation_fails_witness :
  create_collection Faults.forgetful "lyrics" (vectors_config 2)
    (world_of (delete_if_exists Faults.forgetful "lyrics" 3 0 ∅)) =
    (Return tt, ∅) /\
  get_collections Faults.forgetful ∅ = (Return (Memory.listing ∅), ∅) /\
  ~ In "lyrics" (collection_names (Memory.listing ∅)) /\
  result_of (attempt_body Faults.forgetful "lyrics" 2 3 0 ∅) =
    Raise (VerifyFailed "lyrics") /\
  world_of (attempt_body Faults.forgetful "lyrics" 2 3 0 ∅) = ∅.
Proof.
  assert (Hnot : ~ In "lyrics" (collection_names (Memory.listing ∅))).
  { vm_compute. intros []. }
  split; [reflexivity|]. split; [reflexivity|]. split; [exact Hnot|].
  exact (attempt_unverified_creation_fails Faults.forgetful "lyrics" 2 3
           0%nat ∅ tt ∅ (Memory.listing ∅) ∅ eq_refl eq_refl Hnot).
Defined.

Lemma attempt_survives_check_failure_witness :
  (get_collections Faults.listing_down ∅ =
     (Raise (ServiceError "listing failed"), ∅) /\
   exists rest,
     trace_of (attempt_body Faults.listing_down "lyrics" 2 3 0 ∅) =
       [EGetCollections;
        EPrint (MsgCheckWarning (ServiceError "listing failed"));
        EPrint (MsgCreating "lyrics" 2);
        ECreateCollection "lyrics" (vectors_config 2)] ++ rest) /\
  (get_collections Faults.delete_down Memory.fresh =
     (Return (Memory.listing Memory.fresh), Memory.fresh) /\
   In "lyrics" (collection_names (Memory.listing Memory.fresh)) /\
   delete_collection Faults.delete_down "lyrics" Memory.fresh =
     (Raise (ServiceError "locked"), Memory.fresh) /\
   exists rest,
     trace_of (attempt_body Faults.delete_down "lyrics" 2 3 0 Memory.fresh) =
       [EGetCollections;
        EPrint (MsgDeleting "lyrics" (Z.of_nat 0 + 1) 3);
        EDeleteCollection "lyrics";
        EPrint (MsgCheckWarning (ServiceError "locked"));
        EPrint (MsgCreating "lyrics" 2);
        ECreateCollection "lyrics" (vectors_config 2)] ++ rest).
Proof.
  assert (Hin : In "lyrics" (collection_names (Memory.listing Memory.fresh))).
  { vm_compute. left. reflexivity. }
  split.
  - split; [reflexivity|].
    exact (proj1 (attempt_survives_check_failure Faults.listing_down
                    "lyrics" 2 3 0%nat ∅)
             (ServiceError "listing failed") ∅ eq_refl).
  - split; [reflexivity|]. split; [exact Hin|]. split; [reflexivity|].
    exact (proj2 (attempt_survives_check_failure Faults.delete_down
                    "lyrics" 2 3 0%nat Memory.fresh)
             (Memory.listing Memory.fresh) Memory.fresh
             (ServiceError "locked") Memory.fresh eq_refl Hin eq_refl).
Defined.

Lemma attempt_pauses_after_deletion_witness :
  get_collections Memory.services Memory.fresh =
    (Return (Memory.listing Memory.fresh), Memory.fresh) /\
  In "lyrics" (collection_names (Memory.listing Memory.fresh)) /\
  delete_collection Memory.services "lyrics" Memory.fresh = (Return tt, ∅) /\
  exists rest,
    trace_of (attempt_body Memory.services "lyrics" 2 3 0 Memory.fresh) =
      [EGetCollections;
       EPrint (MsgDeleting "lyrics" (Z.of_nat 0 + 1) 3);
       EDeleteCollection "lyrics";
       ESleep 2;
       EPrint (MsgCreating "lyrics" 2);
       ECreateCollection "lyrics" (vectors_config 2)] ++ rest.
Proof.
  assert (Hin : In "lyrics" (collection_names (Memory.listing Memory.fresh))).
  { vm_compute. left. reflexivity. }
  assert (Hdel : delete_collection Memory.services "lyrics" Memory.fresh =
                 (Return tt, ∅)) by (vm_compute; reflexivity).
  split; [reflexivity|]. split; [exact Hin|]. split; [exact Hdel|].
  exact (attempt_pauses_after_deletion Memory.services "lyrics" 2 3 0%nat
           Memory.fresh (Memory.listing Memory.fresh) Memory.fresh tt ∅
           eq_refl Hin Hdel).
Defined.

(** ** Whole runs of the provisioner *)

Lemma count_none (p : event -> bool) (t : list event) :
  Forall (fun ev => p ev = false) t -> count p t = 0%nat.
Proof.
  induction 1 as [|ev t Hev _ IH]; [reflexivity|].
  rewrite count_cons, Hev, IH. reflexivity.
Qed.

Section WholeRun.

Context {W : Type} (env : Services W).
Variables (collection_name : string) (vector_size max_retries : Z).

Local Abbreviation outer_try :=
  (attempt_body env collection_name vector_size max_retries).
Local Abbreviation one_iteration :=
  (iteration env collection_name vector_size max_retries).
Local Abbreviation last_handler :=
  (surface_last_error env collection_name max_retries (A := loop_ctl)).
Local Abbreviation config := (vectors_config vector_size).

(** The events of the [try] body: calls on the store about this collection
    and prints, nothing on the file system. *)
Lemma attempt_body_events attempt w :
  Forall (fun ev => provisioner_event collection_name vector_size ev /\
                    is_filesystem ev = false)
         (trace_of (outer_try attempt w)).
Proof.
  rewrite attempt_body_run. cbv zeta. rewrite delete_if_exists_trace.
  destruct (create_collection env collection_name config _) as [[u|e] w2];
    [destruct (get_collections env w2) as [[listing2|e2] w3];
     [destruct (contains (collection_names listing2) collection_name)|]|];
    cbn [trace_of snd];
    (destruct (get_collections env w) as [[listing|e1] w1];
     [destruct (contains (collection_names listing) collection_name);
      [destruct (fst (delete_collection env collection_name w1))|]|]);
    rewrite ?Forall_app; repeat split;
    repeat (apply Forall_cons_2 || apply Forall_nil_2 || split);
    reflexivity.
Qed.

Lemma surface_last_error_events e w :
  Forall (provisioner_event collection_name vector_size)
         (trace_of (last_handler e w)).
Proof.
  unfold surface_last_error, dump_collections, force_cleanup, try_except,
    bind, call, call_total, print, raise, ret.
  destruct (get_collections env w) as [[listing|e1] w1];
    (destruct (getcwd env w1) as [[cwd|e2] w2];
     [destruct (path_exists env _ w2) as [[|] w3];
      [destruct (rmtree env _ w3) as [[u|e3] w4]|]|]);
    cbn [trace_of snd app];
    repeat (apply Forall_cons_2 || apply Forall_nil_2);
    first [exact I | eexists; reflexivity].
Qed.

Lemma surface_last_error_head e w :
  exists rest,
    trace_of (last_handler e w) =
      EPrint (MsgSetupFailed max_retries) :: EPrint (MsgErrorDetails e)
      :: rest.
Proof.
  unfold surface_last_error, bind, print, raise.
  destruct (dump_collections env w) as [[[[]|e1] w1] t1];
    [destruct (force_cleanup env collection_name w1) as [[[[]|e2] w2] t2]|];
    eexists; reflexivity.
Qed.

(** How one iteration ends, by the end of its [try] body. *)
Lemma iteration_cases attempt w :
  (result_of (outer_try attempt w) = Return tt /\
   one_iteration attempt w =
     (Return ReturnNone, world_of (outer_try attempt w),
      trace_of (outer_try attempt w))) \/
  (exists e,
     result_of (outer_try attempt w) = Raise e /\
     Z.of_nat attempt <> max_retries - 1 /\
     (attempt <= 33)%nat /\
     one_iteration attempt w =
       (Return Continue,
        sleep env (2 ^ Z.of_nat attempt) (world_of (outer_try attempt w)),
        trace_of (outer_try attempt w) ++
        [EPrint (MsgRetrying (Z.of_nat attempt + 1) e
                             (2 ^ Z.of_nat attempt));
         ESleep (2 ^ Z.of_nat attempt)])) \/
  (exists e,
     result_of (outer_try attempt w) = Raise e /\
     Z.of_nat attempt = max_retries - 1 /\
     result_of (one_iteration attempt w) = Raise e /\
     trace_of (one_iteration attempt w) =
       trace_of (outer_try attempt w) ++
       trace_of (last_handler e (world_of (outer_try attempt w)))) \/
  (exists e,
     result_of (outer_try attempt w) = Raise e /\
     Z.of_nat attempt <> max_retries - 1 /\
     (34 <= attempt)%nat /\
     one_iteration attempt w =
       (Raise OverflowError, world_of (outer_try attempt w),
        trace_of (outer_try attempt w) ++
        [EPrint (MsgRetrying (Z.of_nat attempt + 1) e
                             (2 ^ Z.of_nat attempt))])).
Proof.
  destruct (result_of (outer_try attempt w)) as [[]|e] eqn:Hres.
  - left. split; [reflexivity|].
    apply (iteration_succeeds env _ _ _ _ _ Hres).
  - right.
    destruct (Z.eq_dec (Z.of_nat attempt) (max_retries - 1)) as [Hlast|Hnot].
    + right. left. exists e. split; [reflexivity|]. split; [exact Hlast|].
      apply (iteration_surfaces env _ _ _ _ _ _ Hres Hlast).
    + destruct (le_lt_dec attempt 33) as [Hle|Hgt].
      * left. exists e. split; [reflexivity|]. split; [exact Hnot|].
        split; [exact Hle|].
        apply (iteration_retries env _ _ _ _ _ _ Hres Hnot Hle).
      * right. right. exists e. split; [reflexivity|].
        split; [exact Hnot|]. split; [exact Hgt|].
        apply (iteration_overflows env _ _ _ _ _ _ Hres Hnot Hgt).
Qed.

Lemma iteration_events attempt w :
  Forall (provisioner_event collection_name vector_size)
         (trace_of (one_iteration attempt w)).
Proof.
  assert (Hbody : Forall (provisioner_event collection_name vector_size)
                         (trace_of (outer_try attempt w))).
  { eapply Forall_impl; [apply attempt_body_events|]. now intros ev [? _]. }
  destruct (iteration_cases attempt w)
    as [[_ Hit]|[(e & _ & _ & _ & Hit)|[(e & _ & _ & _ & Hit)
                                       |(e & _ & _ & _ & Hit)]]];
    rewrite Hit; cbn [trace_of snd]; [exact Hbody| | |].
  - apply Forall_app. split; [exact Hbody|].
    repeat (apply Forall_cons_2 || apply Forall_nil_2); exact I.
  - apply Forall_app. split; [exact Hbody|apply surface_last_error_events].
  - apply Forall_app. split; [exact Hbody|].
    repeat (apply Forall_cons_2 || apply Forall_nil_2); exact I.
Qed.

Lemma loop_events (attempts : list nat) w :
  Forall (provisioner_event collection_name vector_size)
         (trace_of (for_attempts one_iteration attempts w)).
Proof.
  revert w. induction attempts as [|a attempts IH]; intros w.
  - apply Forall_nil_2.
  - cbn [for_attempts]. unfold bind.
    pose proof (iteration_events a w) as Hit.
    destruct (one_iteration a w) as [[[[|]|e] w1] t1]; cbn in Hit.
    + specialize (IH w1).
      destruct (for_attempts one_iteration attempts w1) as [[r w2] t2].
      cbn in IH |- *. apply Forall_app. split; assumption.
    + cbn. now rewrite app_nil_r.
    + exact Hit.
Qed.

Lemma loop_creates_bounded (attempts : list nat) w :
  (count is_create (trace_of (for_attempts one_iteration attempts w))
   <= length attempts)%nat.
Proof.
  revert w. induction attempts as [|a attempts IH]; intros w.
  - cbn. lia.
  - cbn [for_attempts length]. unfold bind.
    pose proof (iteration_one_create env collection_name vector_size
                  max_retries a w) as Hone.
    destruct (one_iteration a w) as [[[[|]|e] w1] t1];
      cbn [trace_of snd] in Hone.
    + specialize (IH w1).
      destruct (for_attempts one_iteration attempts w1) as [[r w2] t2].
      cbn [trace_of snd] in IH |- *. rewrite count_app. lia.
    + cbn [trace_of snd ret]. rewrite count_app. cbn. lia.
    + cbn [trace_of snd]. lia.
Qed.

(** X5: whatever the store answers, a run of the provisioner only lists
    the collections, deletes and creates the collection it was asked for
    (created under the vector name "text" with the requested size and the
    cosine distance), sleeps, probes and removes the data directory of that
    collection under the working directory, and prints; it never calls the
    embedding provider, never upserts, never searches and never deletes or
    creates another collection. *)
Theorem setup_only_touches_its_collection w :
  Forall (provisioner_event collection_name vector_size)
         (trace_of (setup_qdrant_collection env collection_name vector_size
                                            max_retries w)) /\
  vectors_config vector_size !! "text" =
    Some {| size := vector_size; distance := COSINE |}.
Proof.
  split; [apply loop_events|]. unfold vectors_config. now simplify_map_eq.
Qed.

(** X6: whatever the store answers, the provisioner calls
    [create_collection] at most [max_retries] times. *)
Theorem setup_attempts_bounded w :
  (count is_create
     (trace_of (setup_qdrant_collection env collection_name vector_size
                                        max_retries w))
   <= Z.to_nat max_retries)%nat.
Proof.
  unfold setup_qdrant_collection, range.
  etransitivity; [apply loop_creates_bounded|]. now rewrite length_seq.
Qed.

Lemma attempt_success_trace attempt w :
  result_of (outer_try attempt w) = Return tt ->
  exists t,
    trace_of (outer_try attempt w) =
      t ++ [EGetCollections; EPrint (MsgCreated collection_name)].
Proof.
  rewrite attempt_body_run. cbv zeta.
  destruct (create_collection env collection_name config _) as [[u|e] w2];
    [|discriminate].
  destruct (get_collections env w2) as [[listing|e] w3]; [|discriminate].
  destruct (contains (collection_names listing) collection_name);
    [|discriminate].
  intros _. eexists. reflexivity.
Qed.

Lemma loop_returned (n a : nat) w :
  (a + n = Z.to_nat max_retries)%nat -> (0 < n)%nat ->
  let run := for_attempts one_iteration (seq a n) w in
  result_of run = Return tt ->
  (exists t,
     trace_of run =
       t ++ [EGetCollections; EPrint (MsgCreated collection_name)]) /\
  count is_filesystem (trace_of run) = 0%nat.
Proof.
  revert a w. induction n as [|n IH]; intros a w Hsum Hpos run; [lia|].
  subst run. cbn [seq for_attempts].
  assert (Hfs : count is_filesystem (trace_of (outer_try a w)) = 0%nat).
  { apply count_none. eapply Forall_impl; [apply attempt_body_events|].
    now intros ev [_ ?]. }
  destruct (iteration_cases a w)
    as [[Hok Hit]|[(e & _ & Hnot & _ & Hit)|[(e & _ & _ & Hres & _)
                                            |(e & _ & _ & _ & Hit)]]].
  - rewrite (bind_return _ _ _ _ _ _ Hit). cbn [ret result_of world_of
      trace_of fst snd]. intros _. rewrite app_nil_r.
    split; [apply attempt_success_trace; exact Hok|exact Hfs].
  - rewrite (bind_return _ _ _ _ _ _ Hit).
    cbn [result_of world_of trace_of fst snd]. intros Hret.
    destruct (IH (S a) _ ltac:(lia) ltac:(lia) Hret) as [[t Ht] Hno].
    split.
    + exists ((trace_of (outer_try a w) ++
               [EPrint (MsgRetrying (Z.of_nat a + 1) e (2 ^ Z.of_nat a));
                ESleep (2 ^ Z.of_nat a)]) ++ t).
      rewrite Ht, <- !app_assoc. reflexivity.
    + rewrite !count_app, Hfs, Hno. reflexivity.
  - rewrite (bind_raise _ _ _ e (world_of (one_iteration a w))
               (trace_of (one_iteration a w)))
      by (rewrite <- Hres; apply run_eta).
    discriminate.
  - rewrite (bind_raise _ _ _ _ _ _ Hit). discriminate.
Qed.

(** X7: with at least one attempt allowed, the provisioner returns normally
    only from an attempt whose verification passed: the run ends with the
    listing and the success message of lines 100-103, and it has not touched
    the file system. *)
Theorem setup_success_is_verified w :
  0 < max_retries ->
  let run := setup_qdrant_collection env collection_name vector_size
                                     max_retries w in
  result_of run = Return tt ->
  (exists t,
     trace_of run =
       t ++ [EGetCollections; EPrint (MsgCreated collection_name)]) /\
  count is_filesystem (trace_of run) = 0%nat.
Proof.
  intros Hmax. apply loop_returned; lia.
Qed.

Lemma loop_raised (n a : nat) w e :
  (a + n = Z.to_nat max_retries)%nat -> (a <= 34)%nat ->
  let run := for_attempts one_iteration (seq a n) w in
  result_of run = Raise e ->
  (count is_create (trace_of run) = n /\
   In (EPrint (MsgSetupFailed max_retries)) (trace_of run) /\
   In (EPrint (MsgErrorDetails e)) (trace_of run)) \/
  (36 <= max_retries /\ e = OverflowError /\
   (a + count is_create (trace_of run) = 35)%nat /\
   exists e' t,
     trace_of run = t ++ [EPrint (MsgRetrying 35 e' (2 ^ 34))]).
Proof.
  revert a w. induction n as [|n IH]; intros a w Hsum Hle run;
    [discriminate|].
  subst run. cbn [seq for_attempts].
  pose proof (iteration_one_create env collection_name vector_size
                max_retries a w) as Hone.
  destruct (iteration_cases a w)
    as [[Hok Hit]|[(e' & _ & Hnot & Hlow & Hit)
                  |[(e' & _ & Hlast & Hres & Htr)
                   |(e' & _ & Hnot & Hhigh & Hit)]]].
  - rewrite (bind_return _ _ _ _ _ _ Hit). discriminate.
  - rewrite Hit in Hone. cbn [trace_of snd] in Hone.
    rewrite (bind_return _ _ _ _ _ _ Hit).
    cbn [result_of world_of trace_of fst snd]. intros Hraise.
    destruct (IH (S a) _ ltac:(lia) ltac:(lia) Hraise)
      as [(Hn & Hfailed & Hdetails)|(Hmax & He & Hn & e'' & t & Ht)].
    + left. split; [rewrite count_app, Hone, Hn; reflexivity|].
      split; apply in_or_app; right; assumption.
    + right. split; [exact Hmax|]. split; [exact He|].
      split; [rewrite count_app, Hone; lia|].
      exists e'', ((trace_of (outer_try a w) ++
                    [EPrint (MsgRetrying (Z.of_nat a + 1) e'
                                         (2 ^ Z.of_nat a));
                     ESleep (2 ^ Z.of_nat a)]) ++ t).
      rewrite Ht, <- !app_assoc. reflexivity.
  - rewrite (bind_raise _ _ _ e' (world_of (one_iteration a w))
               (trace_of (one_iteration a w)))
      by (rewrite <- Hres; apply run_eta).
    cbn [result_of trace_of fst snd]. intros He. injection He as <-.
    left. split; [rewrite Hone; lia|].
    rewrite Htr.
    destruct (surface_last_error_head e' (world_of (outer_try a w)))
      as [rest ->].
    split; apply in_or_app; right; [left|right; left]; reflexivity.
  - rewrite Hit in Hone. cbn [trace_of snd] in Hone.
    rewrite (bind_raise _ _ _ _ _ _ Hit).
    cbn [result_of trace_of fst snd]. intros He. injection He as <-.
    assert (Ha : a = 34%nat) by lia. subst a.
    right. split; [lia|]. split; [reflexivity|].
    split; [rewrite Hone; reflexivity|].
    exists e', (trace_of (outer_try 34%nat w)). reflexivity.
Qed.

(** X8: the provisioner ends in an exception in two ways only.  Either it
    has made all its [max_retries] attempts: then [create_collection] was
    called exactly [max_retries] times and the failure message and the
    details of the exception raised were printed.  Or the backoff of attempt
    34, a sleep of [2 ^ 34] seconds, was refused: this needs at least 36
    attempts allowed, the exception is [OverflowError], 35 creation calls
    were made and the last thing printed is the retry message of attempt
    35. *)
Theorem setup_raises_when_exhausted_or_sleep_refused w e :
  let run := setup_qdrant_collection env collection_name vector_size
                                     max_retries w in
  result_of run = Raise e ->
  (0 < max_retries /\
   count is_create (trace_of run) = Z.to_nat max_retries /\
   In (EPrint (MsgSetupFailed max_retries)) (trace_of run) /\
   In (EPrint (MsgErrorDetails e)) (trace_of run)) \/
  (36 <= max_retries /\ e = OverflowError /\
   count is_create (trace_of run) = 35%nat /\
   exists e' t,
     trace_of run = t ++ [EPrint (MsgRetrying 35 e' (2 ^ 34))]).
Proof.
  intros run Hraise. subst run.
  destruct (loop_raised (Z.to_nat max_retries) 0 w e ltac:(lia) ltac:(lia)
              Hraise)
    as [(Hn & Hfailed & Hdetails)|(Hmax & He & Hn & Hlast)].
  - left. split; [|split; [exact Hn|split; assumption]].
    destruct (Z_lt_le_dec 0 max_retries) as [Hpos|Hnone]; [exact Hpos|].
    rewrite (setup_without_attempts env _ _ _ w Hnone) in Hraise.
    discriminate Hraise.
  - right. split; [exact Hmax|]. split; [exact He|].
    split; [exact Hn|exact Hlast].
Qed.

End WholeRun.

Example recovering_run :
  setup_qdrant_collection Faults.recovering "lyrics" 2 3 busy_world =
  (Return tt, {[ "lyrics" := ∅ ]},
   [EGetCollections; EPrint (MsgCreating "lyrics" 2);
    ECreateCollection "lyrics" (vectors_config 2);
    EPrint (MsgRetrying 1 (ServiceError "busy") 1);
    ESleep 1;
    EGetCollections; EPrint (MsgCreating "lyrics" 2);
    ECreateCollection "lyrics" (vectors_config 2);
    EGetCollections; EPrint (MsgCreated "lyrics")]).
Proof. vm_compute. reflexivity. Qed.

Lemma setup_success_is_verified_witness :
  0 < 3 /\
  let run := setup_qdrant_collection Faults.recovering "lyrics" 2 3
                                     busy_world in
  result_of run = Return tt /\
  (exists t,
     trace_of run = t ++ [EGetCollections; EPrint (MsgCreated "lyrics")]) /\
  count is_filesystem (trace_of run) = 0%nat.
Proof.
  assert (Hmax : 0 < 3) by lia.
  assert (Hok : result_of (setup_qdrant_collection Faults.recovering
                             "lyrics" 2 3 busy_world) = Return tt)
    by (vm_compute; reflexivity).
  split; [exact Hmax|]. split; [exact Hok|].
  exact (setup_success_is_verified Faults.recovering "lyrics" 2 3
           busy_world Hmax Hok).
Defined.

Lemma setup_raises_when_exhausted_or_sleep_refused_witness :
  let run := setup_qdrant_collection Memory.store_down "lyrics" 2 3 ∅ in
  result_of run = Raise (ServiceError "connection refused") /\
  ((0 < 3 /\
    count is_create (trace_of run) = Z.to_nat 3 /\
    In (EPrint (MsgSetupFailed 3)) (trace_of run) /\
    In (EPrint (MsgErrorDetails (ServiceError "connection refused")))
       (trace_of run)) \/
   (36 <= 3 /\ ServiceError "connection refused" = OverflowError /\
    count is_create (trace_of run) = 35%nat /\
    exists e' t,
      trace_of run = t ++ [EPrint (MsgRetrying 35 e' (2 ^ 34))])).
Proof.
  assert (Hraise : result_of (setup_qdrant_collection Memory.store_down
                                "lyrics" 2 3 ∅) =
                   Raise (ServiceError "connection refused"))
    by (vm_compute; reflexivity).
  split; [exact Hraise|].
  exact (setup_raises_when_exhausted_or_sleep_refused Memory.store_down
           "lyrics" 2 3 ∅ (ServiceError "connection refused") Hraise).
Defined.

(** ** The forced cleanup *)

Lemma append_assoc (a b c : string) : (a +:+ b) +:+ c = a +:+ b +:+ c.
Proof.
  induction a as [|x a IH]; [reflexivity|].
  change (String x ((a +:+ b) +:+ c) = String x (a +:+ b +:+ c)).
  now rewrite IH.
Qed.

Lemma append_is_empty (a b : string) :
  String.eqb (a +:+ b) "" = true -> String.eqb b "" = true.
Proof.
  destruct a as [|x a]; [trivial|]. intros H. apply String.eqb_eq in H.
  discriminate H.
Qed.

Lemma ends_with_sep_append (a b : string) :
  String.eqb b "" = false -> ends_with_sep (a +:+ b) = ends_with_sep b.
Proof.
  intros Hb. induction a as [|x a IH]; [reflexivity|].
  change (String x a +:+ b) with (String x (a +:+ b)).
  destruct (a +:+ b) as [|y rest] eqn:Hab; [|exact IH].
  pose proof (append_is_empty a b) as Hempty. rewrite Hab in Hempty.
  rewrite Hempty in Hb by reflexivity. discriminate Hb.
Qed.

(** Joining a component that is not absolute and not empty onto a path. *)
Lemma join_relative (path b : string) :
  starts_with_sep b = false -> String.eqb b "" = false ->
  join_component path b =
    (if (String.eqb path "" || ends_with_sep path)%bool then path
     else path +:+ "/") +:+ b /\
  String.eqb (join_component path b) "" = false /\
  ends_with_sep (join_component path b) = ends_with_sep b.
Proof.
  intros Hrel Hb. unfold join_component. rewrite Hrel.
  destruct (String.eqb path "" || ends_with_sep path)%bool.
  - split; [reflexivity|]. split.
    + destruct (String.eqb (path +:+ b) "") eqn:H; [|reflexivity].
      apply append_is_empty in H. congruence.
    + now apply ends_with_sep_append.
  - rewrite <- append_assoc. split; [reflexivity|]. split.
    + destruct (String.eqb ((path +:+ "/") +:+ b) "") eqn:H; [|reflexivity].
      apply append_is_empty in H. congruence.
    + now apply ends_with_sep_append.
Qed.

Lemma join_onto_directory (path b : string) :
  String.eqb path "" = false -> ends_with_sep path = false ->
  starts_with_sep b = false -> String.eqb b "" = false ->
  join_component path b = path +:+ "/" +:+ b /\
  String.eqb (path +:+ "/" +:+ b) "" = false /\
  ends_with_sep (path +:+ "/" +:+ b) = ends_with_sep b.
Proof.
  intros Hpath Hend Hrel Hb.
  destruct (join_relative path b Hrel Hb) as (Hjoin & Hne & Hends).
  rewrite Hpath, Hend in Hjoin. cbn [orb] in Hjoin.
  rewrite append_assoc in Hjoin. rewrite Hjoin in Hne, Hends. auto.
Qed.

Lemma data_dir_of_relative_name (cwd collection_name : string) :
  starts_with_sep collection_name = false ->
  String.eqb collection_name "" = false ->
  data_dir_under cwd collection_name =
    (if (String.eqb cwd "" || ends_with_sep cwd)%bool then cwd
     else cwd +:+ "/")
    +:+ "qdrant_storage/collections/" +:+ collection_name.
Proof.
  intros Hrel Hname. unfold data_dir_under, os_path_join. cbn [fold_left].
  destruct (join_relative cwd "qdrant_storage" eq_refl eq_refl)
    as (Hjoin1 & Hne1 & Hend1).
  rewrite Hjoin1 in *.
  set (root := if (String.eqb cwd "" || ends_with_sep cwd)%bool then cwd
               else cwd +:+ "/") in *.
  destruct (join_onto_directory (root +:+ "qdrant_storage") "collections"
              Hne1 Hend1 eq_refl eq_refl) as (Hjoin2 & Hne2 & Hend2).
  rewrite Hjoin2.
  destruct (join_onto_directory
              ((root +:+ "qdrant_storage") +:+ "/" +:+ "collections")
              collection_name Hne2 Hend2 Hrel Hname) as (Hjoin3 & _).
  rewrite Hjoin3, !append_assoc. reflexivity.
Qed.

Lemma data_dir_of_absolute_name (cwd collection_name : string) :
  starts_with_sep collection_name = true ->
  data_dir_under cwd collection_name = collection_name.
Proof.
  intros Habs. unfold data_dir_under, os_path_join. cbn [fold_left].
  unfold join_component at 1. now rewrite Habs.
Qed.

Section Cleanup.

Context {W : Type} (env : Services W).
Variable collection_name : string.

Lemma force_cleanup_trace w :
  trace_of (force_cleanup env collection_name w) =
  EPrint MsgForceCleanup :: EGetcwd ::
  match getcwd env w with
  | (Raise e, _) => [EPrint (MsgCleanupFailed e)]
  | (Return cwd, w1) =>
      let data_dir := data_dir_under cwd collection_name in
      EPathExists data_dir ::
      match path_exists env data_dir w1 with
      | (false, _) => []
      | (true, w2) =>
          EPrint (MsgRemovingDir data_dir) :: ERmtree data_dir ::
          match fst (rmtree env data_dir w2) with
          | Return _ => [EPrint MsgDirRemoved]
          | Raise e => [EPrint (MsgCleanupFailed e)]
          end
      end
  end.
Proof.
  unfold force_cleanup, data_dir_under, try_except, bind, call, call_total,
    print, ret.
  destruct (getcwd env w) as [[cwd|e] w1]; [|reflexivity].
  cbv zeta. destruct (path_exists env _ w1) as [[|] w2]; [|reflexivity].
  destruct (rmtree env _ w2) as [[u|e] w3]; reflexivity.
Qed.

(** X9: the forced cleanup removes a directory only if the working directory
    could be read and the probe of that very directory, the data directory
    of the collection under the working directory, found it. *)
Theorem cleanup_removes_only_the_probed_directory w path :
  In (ERmtree path) (trace_of (force_cleanup env collection_name w)) ->
  exists cwd w1 w2,
    getcwd env w = (Return cwd, w1) /\
    path = data_dir_under cwd collection_name /\
    path_exists env path w1 = (true, w2).
Proof.
  rewrite force_cleanup_trace.
  destruct (getcwd env w) as [[cwd|e] w1].
  - cbv zeta.
    destruct (path_exists env (data_dir_under cwd collection_name) w1)
      as [[|] w2] eqn:Hprobe.
    + intros [H|[H|[H|[H|[H|H]]]]]; try discriminate H.
      * injection H as <-. exists cwd, w1, w2. auto.
      * destruct (fst (rmtree env _ w2)); destruct H as [H|[]];
          discriminate H.
    + intros [H|[H|[H|[]]]]; discriminate H.
  - intros [H|[H|[H|[]]]]; discriminate H.
Qed.

(** X10: for a collection name that is an absolute path, the directory that
    the forced cleanup probes and removes is that path itself, wherever the
    working directory is. *)
Theorem cleanup_of_absolute_name_removes_that_path w cwd w1 w2 :
  starts_with_sep collection_name = true ->
  getcwd env w = (Return cwd, w1) ->
  path_exists env collection_name w1 = (true, w2) ->
  In (EPathExists collection_name)
     (trace_of (force_cleanup env collection_name w)) /\
  In (ERmtree collection_name)
     (trace_of (force_cleanup env collection_name w)).
Proof.
  intros Habs Hcwd Hprobe. rewrite force_cleanup_trace, Hcwd. cbv zeta.
  rewrite (data_dir_of_absolute_name cwd _ Habs), Hprobe.
  split; [right; right; left; reflexivity|].
  do 4 right. left. reflexivity.
Qed.

(** X11: for a collection name that is neither empty nor absolute, the
    directory probed by the forced cleanup is
    [cwd/qdrant_storage/collections/name], the separator after [cwd] being
    added unless [cwd] is empty or already ends with one. *)
Theorem cleanup_probes_the_storage_directory w cwd w1 :
  starts_with_sep collection_name = false ->
  String.eqb collection_name "" = false ->
  getcwd env w = (Return cwd, w1) ->
  In (EPathExists
        ((if (String.eqb cwd "" || ends_with_sep cwd)%bool then cwd
          else cwd +:+ "/")
         +:+ "qdrant_storage/collections/" +:+ collection_name))
     (trace_of (force_cleanup env collection_name w)).
Proof.
  intros Hrel Hname Hcwd. rewrite force_cleanup_trace, Hcwd. cbv zeta.
  rewrite (data_dir_of_relative_name cwd _ Hrel Hname).
  right. right. left. reflexivity.
Qed.

End Cleanup.

Lemma cleanup_removes_only_the_probed_directory_witness :
  In (ERmtree "/srv/demo/qdrant_storage/collections/lyrics")
     (trace_of (force_cleanup Faults.store_down_on_disk "lyrics" ∅)) /\
  exists cwd w1 w2,
    getcwd Faults.store_down_on_disk ∅ = (Return cwd, w1) /\
    "/srv/demo/qdrant_storage/collections/lyrics" =
      data_dir_under cwd "lyrics" /\
    path_exists Faults.store_down_on_disk
      "/srv/demo/qdrant_storage/collections/lyrics" w1 = (true, w2).
Proof.
  assert (Hin : In (ERmtree "/srv/demo/qdrant_storage/collections/lyrics")
                   (trace_of (force_cleanup Faults.store_down_on_disk
                                            "lyrics" ∅))).
  { vm_compute. do 4 right. left. reflexivity. }
  split; [exact Hin|].
  exact (cleanup_removes_only_the_probed_directory
           Faults.store_down_on_disk "lyrics" ∅ _ Hin).
Defined.

Lemma cleanup_of_absolute_name_removes_that_path_witness :
  starts_with_sep "/home/user" = true /\
  getcwd Faults.store_down_on_disk ∅ = (Return "/srv/demo", ∅) /\
  path_exists Faults.store_down_on_disk "/home/user" ∅ = (true, ∅) /\
  In (EPathExists "/home/user")
     (trace_of (force_cleanup Faults.store_down_on_disk "/home/user" ∅)) /\
  In (ERmtree "/home/user")
     (trace_of (force_cleanup Faults.store_down_on_disk "/home/user" ∅)).
Proof.
  split; [reflexivity|]. split; [reflexivity|]. split; [reflexivity|].
  exact (cleanup_of_absolute_name_removes_that_path
           Faults.store_down_on_disk "/home/user" ∅ "/srv/demo" ∅ ∅
           eq_refl eq_refl eq_refl).
Defined.

Lemma cleanup_probes_the_storage_directory_witness :
  starts_with_sep "lyrics" = false /\
  String.eqb "lyrics" "" = false /\
  getcwd Memory.services ∅ = (Return "/srv/demo", ∅) /\
  In (EPathExists
        ((if (String.eqb "/srv/demo" "" || ends_with_sep "/srv/demo")%bool
          then "/srv/demo" else "/srv/demo" +:+ "/")
         +:+ "qdrant_storage/collections/" +:+ "lyrics"))
     (trace_of (force_cleanup Memory.services "lyrics" ∅)).
Proof.
  split; [reflexivity|]. split; [reflexivity|]. split; [reflexivity|].
  exact (cleanup_probes_the_storage_directory Memory.services "lyrics" ∅
           "/srv/demo" ∅ eq_refl eq_refl eq_refl).
Defined.

Example absolute_name_run :
  setup_qdrant_collection Faults.store_down_on_disk "/home/user" 2 1 ∅ =
  (Raise (ServiceError "connection refused"), ∅,
   [EGetCollections; EPrint (MsgCreating "/home/user" 2);
    ECreateCollection "/home/user" (vectors_config 2);
    EPrint (MsgSetupFailed 1);
    EPrint (MsgErrorDetails (ServiceError "connection refused"));
    EGetCollections; EPrint (MsgCurrentCollections []);
    EPrint MsgForceCleanup; EGetcwd; EPathExists "/home/user";
    EPrint (MsgRemovingDir "/home/user"); ERmtree "/home/user";
    EPrint MsgDirRemoved]).
Proof. vm_compute. reflexivity. Qed.

(** ** The provisioner without any attempt *)

(** X12: with [max_retries] zero or negative the loop body never runs: the
    provisioner returns normally at once, without a single call to the
    store, although nothing was provisioned. *)
Theorem setup_with_no_attempt_allowed {W : Type} (env : Services W)
    collection_name vector_size max_retries w :
  max_retries <= 0 ->
  let run := setup_qdrant_collection env collection_name vector_size
                                     max_retries w in
  result_of run = Return tt /\ world_of run = w /\ trace_of run = [].
Proof.
  intros Hmax run. subst run.
  rewrite (setup_without_attempts env _ _ _ w Hmax). repeat split.
Qed.

Lemma setup_with_no_attempt_allowed_witness :
  0 <= 0 /\
  let run := setup_qdrant_collection Memory.store_down "lyrics" 2 0 ∅ in
  result_of run = Return tt /\ world_of run = ∅ /\ trace_of run = [].
Proof.
  assert (Hmax : 0 <= 0) by lia.
  split; [exact Hmax|].
  exact (setup_with_no_attempt_allowed Memory.store_down "lyrics" 2 0 ∅
           Hmax).
Defined.

(** ** Ingestion: malformed records, refusals, empty batches *)

Lemma make_point_raises idx (data_obj : gmap string pyval) embedding :
  ~ well_formed data_obj ->
  exists key,
    (key = "lyric" \/ key = "id") /\
    make_point (idx, (data_obj, embedding)) = Raise (KeyError key).
Proof.
  intros Hbad. unfold make_point, getitem, and_then.
  destruct (data_obj !! "lyric") as [lyric|] eqn:Hl.
  - destruct (data_obj !! "id") as [id|] eqn:Hi.
    + destruct Hbad. split; eauto.
    + exists "id". auto.
  - exists "lyric". auto.
Qed.

Lemma make_point_total idx (data_obj : gmap string pyval) embedding :
  (exists p, make_point (idx, (data_obj, embedding)) = Return p) \/
  (exists key,
     (key = "lyric" \/ key = "id") /\
     make_point (idx, (data_obj, embedding)) = Raise (KeyError key)).
Proof.
  unfold make_point, getitem, and_then.
  destruct (data_obj !! "lyric") as [lyric|];
    [destruct (data_obj !! "id") as [id|]|]; eauto 6.
Qed.

Lemma points_not_built (data_objs : list (gmap string pyval))
    (embeddings : list vector) (start : nat) :
  (exists (i : nat) data_obj,
      data_objs !! i = Some data_obj /\ (i < length embeddings)%nat /\
      ~ well_formed data_obj) ->
  exists key,
    (key = "lyric" \/ key = "id") /\
    comprehension make_point (enumerate start (zip data_objs embeddings)) =
      Raise (KeyError key).
Proof.
  revert embeddings start.
  induction data_objs as [|d ds IH]; intros es start (i & d' & Hd & Hlt & Hbad).
  - discriminate Hd.
  - destruct es as [|e es]; [cbn in Hlt; lia|].
    cbn [zip_with enumerate comprehension].
    destruct i as [|i].
    + injection Hd as <-.
      destruct (make_point_raises start d e Hbad) as (key & Hkey & ->).
      exists key. auto.
    + destruct (make_point_total start d e)
        as [[p ->]|(key & Hkey & ->)]; [|exists key; auto].
      cbn [and_then].
      destruct (IH es (S start)) as (key & Hkey & ->).
      { exists i, d'. cbn in Hlt. repeat split; [exact Hd|lia|exact Hbad]. }
      exists key. auto.
Qed.

Section Ingestion.

Context {W : Type} (env : Services W).

(** X13: if one of the records that [zip] pairs with an embedding lacks
    "lyric" or "id", [add_to_qdrant] raises [KeyError] for one of these two
    keys before any call to the store: nothing is written, not even the
    points of the records that come first. *)
Theorem add_to_qdrant_malformed_record_writes_nothing
    collection_name (data_objs : list (gmap string pyval))
    (embeddings : list vector) w :
  (exists (i : nat) data_obj,
      data_objs !! i = Some data_obj /\ (i < length embeddings)%nat /\
      ~ well_formed data_obj) ->
  exists key,
    (key = "lyric" \/ key = "id") /\
    add_to_qdrant env collection_name data_objs embeddings w =
      (Raise (KeyError key), w, []).
Proof.
  intros Hbad.
  destruct (points_not_built data_objs embeddings 0 Hbad)
    as (key & Hkey & Hraise).
  exists key. split; [exact Hkey|].
  unfold add_to_qdrant, bind, lift. rewrite Hraise. reflexivity.
Qed.


(** X15: an empty batch is not a special case: without records, or without
    embeddings (whatever the records are), one upsert call is still made,
    carrying no point. *)
Theorem add_to_qdrant_empty_batch
    collection_name (data_objs : list (gmap string pyval))
    (embeddings : list vector) w :
  data_objs = [] \/ embeddings = [] ->
  upserts (trace_of (add_to_qdrant env collection_name data_objs
                                   embeddings w)) =
  [(collection_name, [], true)].
Proof.
  intros Hempty. apply add_to_qdrant_upserts.
  destruct Hempty as [->| ->]; [reflexivity|].
  destruct data_objs; reflexivity.
Qed.

End Ingestion.

Lemma record_without_id_malformed : ~ well_formed record_without_id.
Proof. intros [_ [v Hv]]. vm_compute in Hv. discriminate Hv. Qed.

Lemma add_to_qdrant_malformed_record_writes_nothing_witness :
  let data_objs := [Memory.record7; record_without_id] in
  let embeddings := [[0.5%float]; [0.25%float]] in
  (exists (i : nat) data_obj,
      data_objs !! i = Some data_obj /\ (i < length embeddings)%nat /\
      ~ well_formed data_obj) /\
  exists key,
    (key = "lyric" \/ key = "id") /\
    add_to_qdrant Memory.services "lyrics" data_objs embeddings
                  Memory.fresh =
      (Raise (KeyError key), Memory.fresh, []).
Proof.
  intros data_objs embeddings.
  assert (Hbad : exists (i : nat) data_obj,
             data_objs !! i = Some data_obj /\
             (i < length embeddings)%nat /\ ~ well_formed data_obj).
  { exists 1%nat, record_without_id.
    split; [reflexivity|]. split; [simpl; lia|].
    exact record_without_id_malformed. }
  split; [exact Hbad|].
  exact (add_to_qdrant_malformed_record_writes_nothing Memory.services
           "lyrics" data_objs embeddings Memory.fresh Hbad).
Defined.


Lemma add_to_qdrant_empty_batch_witness :
  upserts (trace_of (add_to_qdrant Memory.services "lyrics"
                                   [record_without_id] [] Memory.fresh)) =
  [("lyrics", [], true)].
Proof.
  apply (add_to_qdrant_empty_batch Memory.services "lyrics"
           [record_without_id] [] Memory.fresh).
  right. reflexivity.
Defined.

(** ** Results of a query; the embedding call *)

Lemma project_keys (hit : ScoredPoint) :
  dom (project hit) = ({[ "lyric"; "id"; "score" ]} : gset string).
Proof.
  unfold project. rewrite !dom_insert_L, dom_singleton_L. set_solver.
Qed.

(** X16: every result of [search_similar] has exactly the three keys
    "lyric", "id" and "score": the identifier under which the store keeps
    the point, its vector and any other payload field are not passed on. *)
Theorem search_results_have_three_fields {W : Type} (env : Services W)
    collection_name query limit w hits w1 :
  search env collection_name ("text", query) limit false true w =
    (Return hits, w1) ->
  exists results,
    result_of (search_similar env collection_name query limit w) =
      Return results /\
    Forall (fun result : gmap string pyval =>
              dom result = ({[ "lyric"; "id"; "score" ]} : gset string))
           results.
Proof.
  intros Hcall. exists (map project hits).
  rewrite (search_similar_returns env _ _ _ _ _ _ Hcall).
  split; [reflexivity|].
  apply Forall_forall. intros result Hin.
  apply list_elem_of_fmap in Hin. destruct Hin as (hit & -> & _).
  apply project_keys.
Qed.

Lemma search_results_have_three_fields_witness :
  search (Memory.answering [Memory.full_hit; Memory.bare_hit]) "lyrics"
         ("text", []) 2 false true ∅ =
    (Return [Memory.full_hit; Memory.bare_hit], ∅) /\
  exists results,
    result_of (search_similar
                 (Memory.answering [Memory.full_hit; Memory.bare_hit])
                 "lyrics" [] 2 ∅) = Return results /\
    Forall (fun result : gmap string pyval =>
              dom result = ({[ "lyric"; "id"; "score" ]} : gset string))
           results.
Proof.
  split; [reflexivity|].
  exact (search_results_have_three_fields
           (Memory.answering [Memory.full_hit; Memory.bare_hit])
           "lyrics" [] 2 ∅ [Memory.full_hit; Memory.bare_hit] ∅ eq_refl).
Defined.

Section Embedding.

Context {W : Type} (env : Services W).

(** X17: whatever the provider answers, [get_embedding] calls it exactly
    once and issues nothing else but its error message, which it prints
    exactly when it ends in an exception, for that exception. *)
Theorem get_embedding_prints_iff_raises text model_name w :
  let run := get_embedding env text model_name w in
  count is_provider_call (trace_of run) = 1%nat /\
  (forall e,
     result_of run = Raise e <->
     In (EPrint (MsgEmbeddingError e)) (trace_of run)) /\
  world_of run = snd (embeddings_create env text model_name w).
Proof.
  intros run. subst run.
  destruct (embeddings_create env text model_name w) as [[response|e] w1]
    eqn:Hcall.
  - destruct (data response) as [|item rest] eqn:Hdata.
    + rewrite (get_embedding_empty_response env _ _ _ _ _ Hcall Hdata).
      split; [reflexivity|]. split; [|reflexivity].
      intros e. cbn. split.
      * intros H. injection H as <-. auto.
      * intros [H|[H|[]]]; [discriminate H|]. now injection H as <-.
    + rewrite (get_embedding_returns env _ _ _ _ _ _ _ Hcall Hdata).
      split; [reflexivity|]. split; [|reflexivity].
      intros e. cbn. split; [discriminate|].
      intros [H|[]]. discriminate H.
  - rewrite (get_embedding_raises env _ _ _ _ _ Hcall).
    split; [reflexivity|]. split; [|reflexivity].
    intros e'. cbn. split.
    + intros H. injection H as <-. auto.
    + intros [H|[H|[]]]; [discriminate H|]. now injection H as <-.
Qed.

(** X18: a response of the provider without any item is not distinguished
    from a failure of the provider: line 56 raises [IndexError], which is
    printed as an embedding error and raised to the caller. *)
Theorem get_embedding_empty_response_raises text model_name w response w1 :
  embeddings_create env text model_name w = (Return response, w1) ->
  data response = [] ->
  let run := get_embedding env text model_name w in
  result_of run = Raise IndexError /\
  In (EPrint (MsgEmbeddingError IndexError)) (trace_of run) /\
  count is_provider_call (trace_of run) = 1%nat.
Proof.
  intros Hcall Hdata run. subst run.
  rewrite (get_embedding_empty_response env _ _ _ _ _ Hcall Hdata).
  split; [reflexivity|]. split; [right; left; reflexivity|reflexivity].
Qed.

End Embedding.

Lemma get_embedding_empty_response_raises_witness :
  embeddings_create Faults.empty_response (VStr "X") "m" ∅ =
    (Return {| data := [] |}, ∅) /\
  let run := get_embedding Faults.empty_response (VStr "X") "m" ∅ in
  result_of run = Raise IndexError /\
  In (EPrint (MsgEmbeddingError IndexError)) (trace_of run) /\
  count is_provider_call (trace_of run) = 1%nat.
Proof.
  split; [reflexivity|].
  exact (get_embedding_empty_response_raises Faults.empty_response
           (VStr "X") "m" ∅ {| data := [] |} ∅ eq_refl eq_refl).
Defined.

(** ** The demo driver, stage by stage *)

Lemma provisioner_event_kind collection_name vector_size ev :
  provisioner_event collection_name vector_size ev ->
  is_upsert ev = false /\ is_search ev = false /\
  is_provider_call ev = false.
Proof. destruct ev; cbn; intros H; try destruct H; auto. Qed.

Section Stages.

Context {W : Type} (env : Services W).
Variables (MODEL_NAME COLLECTION_NAME : string).

Local Abbreviation the_demo := (demo env MODEL_NAME COLLECTION_NAME).
Local Abbreviation the_main := (main env MODEL_NAME COLLECTION_NAME).
Local Abbreviation go_on :=
  (provision_and_go_on env MODEL_NAME COLLECTION_NAME).
Local Abbreviation embed := (fun text => get_embedding env text MODEL_NAME).

Lemma demo_stages :
  the_demo =
  bind (print MsgGenerating) (fun _ =>
  bind (lift (Return sample_texts)) (fun texts =>
  bind (for_each embed texts) go_on)).
Proof. reflexivity. Qed.

Lemma main_of_demo w :
  the_main w =
  match the_demo w with
  | (Return u, w1, t1) => (Return u, w1, t1)
  | (Raise e, w1, t1) =>
      (Return tt, w1,
       t1 ++ [EPrint (MsgError e); EPrint MsgTipsHeader; EPrint MsgTipModel;
              EPrint MsgTipConnection;
              EPrint (MsgTipCollection COLLECTION_NAME)])
  end.
Proof.
  unfold main, try_except.
  destruct (the_demo w) as [[[u|e] w1] t1]; reflexivity.
Qed.

Lemma for_each_step {A B} (f : A -> M W B) x rest w y w1 t1 :
  f x w = (Return y, w1, t1) ->
  for_each f (x :: rest) w =
    (match result_of (for_each f rest w1) with
     | Return ys => Return (y :: ys)
     | Raise e => Raise e
     end,
     world_of (for_each f rest w1),
     t1 ++ trace_of (for_each f rest w1)).
Proof.
  intros Hx. cbn [for_each]. unfold bind, ret. rewrite Hx.
  destruct (for_each f rest w1) as [[[ys|e] w2] t2]; cbn;
    rewrite ?app_nil_r; reflexivity.
Qed.

Lemma sample_embeddings_fail_first w e w1 :
  embeddings_create env first_text MODEL_NAME w = (Raise e, w1) ->
  for_each embed sample_texts w =
    (Raise e, w1,
     [EEmbeddingsCreate first_text MODEL_NAME;
      EPrint (MsgEmbeddingError e)]).
Proof.
  intros H1. cbn [sample_texts for_each].
  apply bind_raise. apply get_embedding_raises. exact H1.
Qed.

Lemma sample_embeddings_return w r1 w1 i1 rest1 r2 w2 i2 rest2 :
  embeddings_create env first_text MODEL_NAME w = (Return r1, w1) ->
  data r1 = i1 :: rest1 ->
  embeddings_create env second_text MODEL_NAME w1 = (Return r2, w2) ->
  data r2 = i2 :: rest2 ->
  for_each embed sample_texts w =
    (Return [embedding i1; embedding i2], w2,
     [EEmbeddingsCreate first_text MODEL_NAME;
      EEmbeddingsCreate second_text MODEL_NAME]).
Proof.
  intros H1 D1 H2 D2. unfold sample_texts.
  rewrite (for_each_step embed first_text [second_text] w _ _ _
             (get_embedding_returns env _ _ _ _ _ _ _ H1 D1)).
  rewrite (for_each_step embed second_text [] w1 _ _ _
             (get_embedding_returns env _ _ _ _ _ _ _ H2 D2)).
  reflexivity.
Qed.

(** The demo once both sample embeddings are there. *)
Lemma demo_after_embeddings w r1 w1 i1 rest1 r2 w2 i2 rest2 :
  embeddings_create env first_text MODEL_NAME w = (Return r1, w1) ->
  data r1 = i1 :: rest1 ->
  embeddings_create env second_text MODEL_NAME w1 = (Return r2, w2) ->
  data r2 = i2 :: rest2 ->
  let rest := go_on [embedding i1; embedding i2] w2 in
  the_demo w =
    (result_of rest, world_of rest,
     [EPrint MsgGenerating;
      EEmbeddingsCreate first_text MODEL_NAME;
      EEmbeddingsCreate second_text MODEL_NAME] ++ trace_of rest).
Proof.
  intros H1 D1 H2 D2 rest. subst rest. rewrite demo_stages.
  unfold bind at 1, print. unfold bind at 1, lift.
  rewrite (bind_return _ _ _ _ _ _
             (sample_embeddings_return _ _ _ _ _ _ _ _ _ H1 D1 H2 D2)).
  reflexivity.
Qed.

(** X19: when the provider fails on the first sample text, the demo stops
    there: [main] prints the error and the tips and returns, having made a
    single provider call and no call to the store. *)
Theorem main_stops_at_first_embedding_failure w e w1 :
  embeddings_create env first_text MODEL_NAME w = (Raise e, w1) ->
  the_main w =
    (Return tt, w1,
     [EPrint MsgGenerating;
      EEmbeddingsCreate first_text MODEL_NAME;
      EPrint (MsgEmbeddingError e);
      EPrint (MsgError e); EPrint MsgTipsHeader; EPrint MsgTipModel;
      EPrint MsgTipConnection; EPrint (MsgTipCollection COLLECTION_NAME)]) /\
  count is_store_call (trace_of (the_main w)) = 0%nat /\
  count is_provider_call (trace_of (the_main w)) = 1%nat.
Proof.
  intros H1.
  assert (Hmain : the_main w =
    (Return tt, w1,
     [EPrint MsgGenerating;
      EEmbeddingsCreate first_text MODEL_NAME;
      EPrint (MsgEmbeddingError e);
      EPrint (MsgError e); EPrint MsgTipsHeader; EPrint MsgTipModel;
      EPrint MsgTipConnection; EPrint (MsgTipCollection COLLECTION_NAME)])).
  { rewrite main_of_demo, demo_stages.
    unfold bind at 1, print. unfold bind at 1, lift.
    rewrite (bind_raise _ _ _ _ _ _ (sample_embeddings_fail_first _ _ _ H1)).
    reflexivity. }
  rewrite Hmain. repeat split.
Qed.

Local Abbreviation provision :=
  (fun embedding_array : list vector =>
     setup_qdrant_collection env COLLECTION_NAME
       (Z.of_nat (dimension_of embedding_array)) 3).
Local Abbreviation go_further :=
  (ingest_and_query env MODEL_NAME COLLECTION_NAME).

Lemma provision_and_go_on_run embedding_array w :
  go_on embedding_array w =
  let setup := provision embedding_array w in
  let announce :=
    EPrint (MsgSettingUp (length embedding_array)
                         (dimension_of embedding_array)) in
  match result_of setup with
  | Raise e => (Raise e, world_of setup, announce :: trace_of setup)
  | Return _ =>
      let rest := go_further embedding_array (world_of setup) in
      (result_of rest, world_of rest,
       announce :: trace_of setup ++ trace_of rest)
  end.
Proof.
  unfold provision_and_go_on, bind, print.
  destruct (provision embedding_array w) as [[[[]|e] w1] t1];
    cbn [result_of world_of trace_of fst snd]; [|reflexivity].
  destruct (go_further embedding_array w1) as [[r w2] t2]. reflexivity.
Qed.

(** X20: once the two sample embeddings are there, the demo announces two
    vectors of the dimension of the first one and provisions
    [COLLECTION_NAME] for that dimension with three attempts; the second
    embedding does not count for the dimension. *)
Theorem main_provisions_for_first_embedding
    w r1 w1 i1 rest1 r2 w2 i2 rest2 :
  embeddings_create env first_text MODEL_NAME w = (Return r1, w1) ->
  data r1 = i1 :: rest1 ->
  embeddings_create env second_text MODEL_NAME w1 = (Return r2, w2) ->
  data r2 = i2 :: rest2 ->
  exists rest,
    trace_of (the_main w) =
      [EPrint MsgGenerating;
       EEmbeddingsCreate first_text MODEL_NAME;
       EEmbeddingsCreate second_text MODEL_NAME;
       EPrint (MsgSettingUp 2 (length (embedding i1)))] ++
      trace_of (setup_qdrant_collection env COLLECTION_NAME
                  (Z.of_nat (length (embedding i1))) 3 w2) ++
      rest.
Proof.
  intros H1 D1 H2 D2.
  rewrite main_of_demo, (demo_after_embeddings _ _ _ _ _ _ _ _ _ H1 D1 H2 D2).
  cbv zeta. rewrite provision_and_go_on_run. cbv zeta.
  cbn [dimension_of length].
  destruct (result_of (setup_qdrant_collection env COLLECTION_NAME
                         (Z.of_nat (length (embedding i1))) 3 w2))
    as [[]|e].
  - cbn [result_of world_of trace_of fst snd].
    destruct (result_of (go_further _ _)) as [u|e];
      eexists; cbn [trace_of snd app]; rewrite <- ?app_assoc;
      cbn [app]; reflexivity.
  - eexists. cbn [trace_of snd app]. reflexivity.
Qed.

(** X21: when the provisioning fails, the demo neither ingests nor
    searches: [main] prints the error of the provisioner and the tips after
    the trace of the provisioner, and returns. *)
Theorem main_skips_ingestion_when_provisioning_fails
    w r1 w1 i1 rest1 r2 w2 i2 rest2 e :
  embeddings_create env first_text MODEL_NAME w = (Return r1, w1) ->
  data r1 = i1 :: rest1 ->
  embeddings_create env second_text MODEL_NAME w1 = (Return r2, w2) ->
  data r2 = i2 :: rest2 ->
  let setup := setup_qdrant_collection env COLLECTION_NAME
                 (Z.of_nat (length (embedding i1))) 3 w2 in
  result_of setup = Raise e ->
  the_main w =
    (Return tt, world_of setup,
     [EPrint MsgGenerating;
      EEmbeddingsCreate first_text MODEL_NAME;
      EEmbeddingsCreate second_text MODEL_NAME;
      EPrint (MsgSettingUp 2 (length (embedding i1)))] ++
     trace_of setup ++
     [EPrint (MsgError e); EPrint MsgTipsHeader; EPrint MsgTipModel;
      EPrint MsgTipConnection; EPrint (MsgTipCollection COLLECTION_NAME)]) /\
  count is_upsert (trace_of (the_main w)) = 0%nat /\
  count is_search (trace_of (the_main w)) = 0%nat.
Proof.
  intros H1 D1 H2 D2 setup Hfail.
  assert (Hmain : the_main w =
    (Return tt, world_of setup,
     [EPrint MsgGenerating;
      EEmbeddingsCreate first_text MODEL_NAME;
      EEmbeddingsCreate second_text MODEL_NAME;
      EPrint (MsgSettingUp 2 (length (embedding i1)))] ++
     trace_of setup ++
     [EPrint (MsgError e); EPrint MsgTipsHeader; EPrint MsgTipModel;
      EPrint MsgTipConnection; EPrint (MsgTipCollection COLLECTION_NAME)])).
  { rewrite main_of_demo,
      (demo_after_embeddings _ _ _ _ _ _ _ _ _ H1 D1 H2 D2).
    cbv zeta. rewrite provision_and_go_on_run. cbv zeta.
    cbn [dimension_of length]. fold setup. rewrite Hfail.
    cbn [result_of world_of trace_of fst snd app]. reflexivity. }
  split; [exact Hmain|]. rewrite Hmain. cbn [trace_of snd].
  assert (Hkinds : Forall (fun ev => is_upsert ev = false /\
                                     is_search ev = false)
                          (trace_of setup)).
  { eapply Forall_impl; [apply loop_events|].
    intros ev Hev.
    destruct (provisioner_event_kind _ _ _ Hev) as (? & ? & _). auto. }
  split; rewrite !count_app.
  - rewrite (count_none is_upsert (trace_of setup)); [reflexivity|].
    eapply Forall_impl; [exact Hkinds|]. now intros ev [? _].
  - rewrite (count_none is_search (trace_of setup)); [reflexivity|].
    eapply Forall_impl; [exact Hkinds|]. now intros ev [_ ?].
Qed.

Lemma print_result_block i hit w :
  print_result (W := W) (i, project hit) w =
    (Return tt, w, printed_block (i, hit)).
Proof.
  unfold print_result, bind, lift, print, getitem.
  rewrite project_score, project_id, project_lyric. reflexivity.
Qed.

Lemma report_printed hits start w :
  for_in (W := W) print_result (enumerate start (map project hits)) w =
    (Return tt, w, concat (map printed_block (enumerate start hits))).
Proof.
  revert start. induction hits as [|hit hits IH]; intros start.
  - reflexivity.
  - cbn [map enumerate for_in concat]. unfold bind.
    rewrite print_result_block, IH. reflexivity.
Qed.

Lemma ingest_and_query_run
    embedding_array w3 w4 t4 rq w5 iq restq hits w6 :
  add_to_qdrant env COLLECTION_NAME data_objs embedding_array w3 =
    (Return tt, w4, t4) ->
  embeddings_create env (VStr query_text) MODEL_NAME w4 = (Return rq, w5) ->
  data rq = iq :: restq ->
  search env COLLECTION_NAME ("text", embedding iq) 2 false true w5 =
    (Return hits, w6) ->
  go_further embedding_array w3 =
    (Return tt, w6,
     t4 ++
     [EPrint MsgPerforming; EPrint (MsgQuery query_text);
      EEmbeddingsCreate (VStr query_text) MODEL_NAME;
      ESearch COLLECTION_NAME ("text", embedding iq) 2 false true;
      EPrint MsgResultsHeader; EPrint MsgRule] ++
     concat (map printed_block (enumerate 1 hits))).
Proof.
  intros Hadd Hq Dq Hsearch. unfold ingest_and_query.
  rewrite (bind_return _ _ _ _ _ _ Hadd). cbv beta.
  match goal with
  | |- context [bind (print MsgPerforming) ?k w4] =>
      assert (Htail : bind (print MsgPerforming) k w4 =
        (Return tt, w6,
         [EPrint MsgPerforming; EPrint (MsgQuery query_text);
          EEmbeddingsCreate (VStr query_text) MODEL_NAME;
          ESearch COLLECTION_NAME ("text", embedding iq) 2 false true;
          EPrint MsgResultsHeader; EPrint MsgRule] ++
         concat (map printed_block (enumerate 1 hits))))
  end.
  { unfold bind, print.
    rewrite (get_embedding_returns env _ _ _ _ _ _ _ Hq Dq).
    rewrite (search_similar_returns env _ _ _ _ _ _ Hsearch).
    rewrite report_printed. reflexivity. }
  rewrite Htail. reflexivity.
Qed.

(** X22: when every stage succeeds, [main] runs them in the order
    embeddings, provisioning, ingestion of the two sample records with the
    two embeddings, embedding of the query text, search with limit 2 on the
    vector named "text"; then it prints a header and, for each hit in the
    store's order, a block of four lines ranked from 1. *)
Theorem main_runs_every_stage_and_reports
    w r1 w1 i1 rest1 r2 w2 i2 rest2 w3 t3 w4 t4 rq w5 iq restq hits w6 :
  embeddings_create env first_text MODEL_NAME w = (Return r1, w1) ->
  data r1 = i1 :: rest1 ->
  embeddings_create env second_text MODEL_NAME w1 = (Return r2, w2) ->
  data r2 = i2 :: rest2 ->
  setup_qdrant_collection env COLLECTION_NAME
    (Z.of_nat (length (embedding i1))) 3 w2 = (Return tt, w3, t3) ->
  add_to_qdrant env COLLECTION_NAME data_objs
    [embedding i1; embedding i2] w3 = (Return tt, w4, t4) ->
  embeddings_create env (VStr query_text) MODEL_NAME w4 = (Return rq, w5) ->
  data rq = iq :: restq ->
  search env COLLECTION_NAME ("text", embedding iq) 2 false true w5 =
    (Return hits, w6) ->
  the_main w =
    (Return tt, w6,
     [EPrint MsgGenerating;
      EEmbeddingsCreate first_text MODEL_NAME;
      EEmbeddingsCreate second_text MODEL_NAME;
      EPrint (MsgSettingUp 2 (length (embedding i1)))] ++
     t3 ++ t4 ++
     [EPrint MsgPerforming; EPrint (MsgQuery query_text);
      EEmbeddingsCreate (VStr query_text) MODEL_NAME;
      ESearch COLLECTION_NAME ("text", embedding iq) 2 false true;
      EPrint MsgResultsHeader; EPrint MsgRule] ++
     concat (map printed_block (enumerate 1 hits))).
Proof.
  intros H1 D1 H2 D2 Hsetup Hadd Hq Dq Hsearch.
  rewrite main_of_demo, (demo_after_embeddings _ _ _ _ _ _ _ _ _ H1 D1 H2 D2).
  cbv zeta. rewrite provision_and_go_on_run. cbv zeta.
  cbn [dimension_of length]. rewrite Hsetup.
  cbn [result_of world_of trace_of fst snd].
  rewrite (ingest_and_query_run _ _ _ _ _ _ _ _ _ _ Hadd Hq Dq Hsearch).
  cbn [result_of world_of trace_of fst snd app]. reflexivity.
Qed.

End Stages.

Lemma main_stops_at_first_embedding_failure_witness :
  embeddings_create Memory.provider_down first_text "m" ∅ =
    (Raise (ServiceError "timeout"), ∅) /\
  main Memory.provider_down "m" "lyrics" ∅ =
    (Return tt, ∅,
     [EPrint MsgGenerating;
      EEmbeddingsCreate first_text "m";
      EPrint (MsgEmbeddingError (ServiceError "timeout"));
      EPrint (MsgError (ServiceError "timeout")); EPrint MsgTipsHeader;
      EPrint MsgTipModel; EPrint MsgTipConnection;
      EPrint (MsgTipCollection "lyrics")]) /\
  count is_store_call (trace_of (main Memory.provider_down "m" "lyrics" ∅)) =
    0%nat /\
  count is_provider_call
    (trace_of (main Memory.provider_down "m" "lyrics" ∅)) = 1%nat.
Proof.
  split; [reflexivity|].
  exact (main_stops_at_first_embedding_failure Memory.provider_down "m"
           "lyrics" ∅ (ServiceError "timeout") ∅ eq_refl).
Defined.

Lemma main_provisions_for_first_embedding_witness :
  embeddings_create Memory.services first_text "m" ∅ =
    (Return sample_response, ∅) /\
  embeddings_create Memory.services second_text "m" ∅ =
    (Return sample_response, ∅) /\
  exists rest,
    trace_of (main Memory.services "m" "lyrics" ∅) =
      [EPrint MsgGenerating;
       EEmbeddingsCreate first_text "m";
       EEmbeddingsCreate second_text "m";
       EPrint (MsgSettingUp 2 (length (embedding sample_item)))] ++
      trace_of (setup_qdrant_collection Memory.services "lyrics"
                  (Z.of_nat (length (embedding sample_item))) 3 ∅) ++
      rest.
Proof.
  split; [reflexivity|]. split; [reflexivity|].
  exact (main_provisions_for_first_embedding Memory.services "m" "lyrics"
           ∅ sample_response ∅ sample_item [] sample_response ∅
           sample_item [] eq_refl eq_refl eq_refl eq_refl).
Defined.

Lemma main_skips_ingestion_when_provisioning_fails_witness :
  let setup := setup_qdrant_collection Memory.store_down "lyrics"
                 (Z.of_nat (length (embedding sample_item))) 3 ∅ in
  result_of setup = Raise (ServiceError "connection refused") /\
  main Memory.store_down "m" "lyrics" ∅ =
    (Return tt, world_of setup,
     [EPrint MsgGenerating;
      EEmbeddingsCreate first_text "m";
      EEmbeddingsCreate second_text "m";
      EPrint (MsgSettingUp 2 (length (embedding sample_item)))] ++
     trace_of setup ++
     [EPrint (MsgError (ServiceError "connection refused"));
      EPrint MsgTipsHeader; EPrint MsgTipModel;
      EPrint MsgTipConnection; EPrint (MsgTipCollection "lyrics")]) /\
  count is_upsert (trace_of (main Memory.store_down "m" "lyrics" ∅)) =
    0%nat /\
  count is_search (trace_of (main Memory.store_down "m" "lyrics" ∅)) =
    0%nat.
Proof.
  intros setup.
  assert (Hfail : result_of setup = Raise (ServiceError "connection refused"))
    by (vm_compute; reflexivity).
  split; [exact Hfail|].
  exact (main_skips_ingestion_when_provisioning_fails Memory.store_down "m"
           "lyrics" ∅ sample_response ∅ sample_item [] sample_response ∅
           sample_item [] (ServiceError "connection refused")
           eq_refl eq_refl eq_refl eq_refl Hfail).
Defined.

Lemma main_runs_every_stage_and_reports_witness :
  let setup := setup_qdrant_collection Memory.services "lyrics"
                 (Z.of_nat (length (embedding sample_item))) 3 ∅ in
  let ingestion := add_to_qdrant Memory.services "lyrics" data_objs
                     [embedding sample_item; embedding sample_item]
                     (world_of setup) in
  let answer := search Memory.services "lyrics"
                  ("text", embedding sample_item) 2 false true
                  (world_of ingestion) in
  exists hits,
    fst answer = Return hits /\ length hits = 2%nat /\
    main Memory.services "m" "lyrics" ∅ =
      (Return tt, snd answer,
       [EPrint MsgGenerating;
        EEmbeddingsCreate first_text "m";
        EEmbeddingsCreate second_text "m";
        EPrint (MsgSettingUp 2 (length (embedding sample_item)))] ++
       trace_of setup ++ trace_of ingestion ++
       [EPrint MsgPerforming; EPrint (MsgQuery query_text);
        EEmbeddingsCreate (VStr query_text) "m";
        ESearch "lyrics" ("text", embedding sample_item) 2 false true;
        EPrint MsgResultsHeader; EPrint MsgRule] ++
       concat (map printed_block (enumerate 1 hits))).
Proof.
  intros setup ingestion answer.
  assert (Hsetup : setup = (Return tt, world_of setup, trace_of setup))
    by (vm_compute; reflexivity).
  assert (Hadd : ingestion =
                 (Return tt, world_of ingestion, trace_of ingestion))
    by (vm_compute; reflexivity).
  destruct answer as [[hits|e] w6] eqn:Hanswer;
    [|vm_compute in Hanswer; discriminate Hanswer].
  exists hits. split; [reflexivity|].
  split.
  { vm_compute in Hanswer. injection Hanswer as <- _. reflexivity. }
  exact (main_runs_every_stage_and_reports Memory.services "m" "lyrics"
           ∅ sample_response ∅ sample_item [] sample_response ∅
           sample_item [] (world_of setup) (trace_of setup)
           (world_of ingestion) (trace_of ingestion)
           sample_response (world_of ingestion) sample_item [] hits w6
           eq_refl eq_refl eq_refl eq_refl Hsetup Hadd eq_refl eq_refl
           Hanswer).
Defined.

(** ** The backoff delays of a failing run *)

Lemma backoffs_skip (t1 t2 : list event) :
  Forall not_retry_message t1 -> backoffs (t1 ++ t2) = backoffs t2.
Proof.
  induction 1 as [|ev t1 Hev _ IH]; [reflexivity|].
  cbn [app]. destruct ev as [| | | | | | | | | |m]; try exact IH.
  destruct m; try exact IH. destruct Hev.
Qed.

Lemma backoffs_retry attempt_no e seconds (t : list event) :
  backoffs (EPrint (MsgRetrying attempt_no e seconds) :: ESleep seconds :: t)
  = seconds :: backoffs t.
Proof. reflexivity. Qed.

Section Backoffs.

Context {W : Type} (env : Services W).
Variables (collection_name : string) (vector_size max_retries : Z).

Local Abbreviation outer_try :=
  (attempt_body env collection_name vector_size max_retries).
Local Abbreviation last_handler :=
  (surface_last_error env collection_name max_retries (A := loop_ctl)).
Local Abbreviation iteration_at :=
  (iteration_run env collection_name vector_size max_retries).
Local Abbreviation start_of :=
  (world_before env collection_name vector_size max_retries).
Local Abbreviation config := (vectors_config vector_size).

Lemma attempt_body_no_retry_message attempt w :
  Forall not_retry_message (trace_of (outer_try attempt w)).
Proof.
  rewrite attempt_body_run. cbv zeta. rewrite delete_if_exists_trace.
  destruct (create_collection env collection_name config _) as [[u|e] w2];
    [destruct (get_collections env w2) as [[listing2|e2] w3];
     [destruct (contains (collection_names listing2) collection_name)|]|];
    cbn [trace_of snd];
    (destruct (get_collections env w) as [[listing|e1] w1];
     [destruct (contains (collection_names listing) collection_name);
      [destruct (fst (delete_collection env collection_name w1))|]|]);
    rewrite ?Forall_app; repeat split;
    repeat (apply Forall_cons_2 || apply Forall_nil_2); exact I.
Qed.

Lemma surface_last_error_no_retry_message e w :
  Forall not_retry_message (trace_of (last_handler e w)).
Proof.
  unfold surface_last_error, dump_collections, force_cleanup, try_except,
    bind, call, call_total, print, raise, ret.
  destruct (get_collections env w) as [[listing|e1] w1];
    (destruct (getcwd env w1) as [[cwd|e2] w2];
     [destruct (path_exists env _ w2) as [[|] w3];
      [destruct (rmtree env _ w3) as [[u|e3] w4]|]|]);
    cbn [trace_of snd app];
    repeat (apply Forall_cons_2 || apply Forall_nil_2); exact I.
Qed.

Local Abbreviation one_iteration :=
  (iteration env collection_name vector_size max_retries).

Lemma backoffs_of_failing_loop w :
  every_attempt_fails env collection_name vector_size max_retries w ->
  forall n a,
    (a + n = Z.to_nat max_retries)%nat -> (0 < n)%nat -> (a <= 34)%nat ->
    backoffs (trace_of (for_attempts one_iteration (seq a n)
                                     (start_of a w))) =
    map (fun attempt => 2 ^ Z.of_nat attempt)
        (seq a (Nat.min (n - 1) (34 - a))).
Proof.
  intros Hall n. induction n as [|n IH]; intros a Hsum Hpos Hle; [lia|].
  destruct (Hall a ltac:(lia)) as [e He].
  unfold attempt_fails_with, attempt_run in He.
  cbn [seq for_attempts].
  destruct (Nat.eq_dec n 0%nat) as [->|Hn].
  - destruct (iteration_surfaces env _ _ _ _ _ _ He ltac:(lia))
      as [Hres Htr].
    rewrite (bind_raise _ _ _ e
               (world_of (one_iteration a (start_of a w)))
               (trace_of (one_iteration a (start_of a w))))
      by (rewrite <- Hres; apply run_eta).
    cbn [trace_of snd]. rewrite Htr.
    rewrite backoffs_skip by apply attempt_body_no_retry_message.
    rewrite <- (app_nil_r (trace_of (last_handler _ _))).
    rewrite backoffs_skip by apply surface_last_error_no_retry_message.
    reflexivity.
  - destruct (le_lt_dec a 33) as [Hlow|Hhigh].
    + pose proof (iteration_retries env _ _ _ _ _ _ He ltac:(lia) Hlow)
        as Hit.
      rewrite (bind_return _ _ _ _ _ _ Hit).
      cbn [result_of world_of trace_of fst snd].
      specialize (IH (S a) ltac:(lia) ltac:(lia) ltac:(lia)).
      cbn [world_before] in IH. rewrite Hit in IH.
      cbn [world_of fst snd] in IH.
      rewrite <- app_assoc.
      rewrite backoffs_skip by apply attempt_body_no_retry_message.
      cbn [app]. rewrite backoffs_retry, IH.
      replace (Nat.min (S n - 1) (34 - a))
        with (S (Nat.min (n - 1) (34 - S a))) by lia.
      reflexivity.
    + pose proof (iteration_overflows env _ _ _ _ _ _ He ltac:(lia) Hhigh)
        as Hit.
      rewrite (bind_raise _ _ _ _ _ _ Hit). cbn [trace_of snd].
      rewrite backoffs_skip by apply attempt_body_no_retry_message.
      replace (Nat.min (S n - 1) (34 - a)) with 0%nat by lia.
      reflexivity.
Qed.

(** X23: in a run in which every attempt fails, the backoff sleeps are, in
    this order, of 1, 2, 4, ... seconds, the one after attempt [k] of
    [2 ^ k] seconds: one after each attempt but the last, and never more
    than 34 of them, since the next one, of [2 ^ 34] seconds, is refused
    and ends the run. *)
Theorem backoff_delays_of_failing_run w :
  every_attempt_fails env collection_name vector_size max_retries w ->
  backoffs (trace_of (setup_qdrant_collection env collection_name
                        vector_size max_retries w)) =
  map (fun attempt => 2 ^ Z.of_nat attempt)
      (seq 0 (Nat.min (Z.to_nat max_retries - 1) 34)).
Proof.
  intros Hall.
  destruct (Z_lt_le_dec 0 max_retries) as [Hpos|Hnone].
  - unfold setup_qdrant_collection, range.
    apply (backoffs_of_failing_loop w Hall (Z.to_nat max_retries) 0%nat);
      lia.
  - rewrite (setup_without_attempts env _ _ _ w Hnone).
    replace (Z.to_nat max_retries) with 0%nat by lia. reflexivity.
Qed.

End Backoffs.

Lemma backoff_delays_of_failing_run_witness :
  every_attempt_fails Memory.store_down "lyrics" 2 3 ∅ /\
  backoffs (trace_of (setup_qdrant_collection Memory.store_down "lyrics"
                        2 3 ∅)) =
  map (fun attempt => 2 ^ Z.of_nat attempt)
      (seq 0 (Nat.min (Z.to_nat 3 - 1) 34)).
Proof.
  split; [exact store_down_every_attempt_fails|].
  exact (backoff_delays_of_failing_run Memory.store_down "lyrics" 2 3 ∅
           store_down_every_attempt_fails).
Defined.

(** With forty attempts allowed and every one failing: 34 backoff sleeps,
    the last of [2 ^ 33] seconds, then the refusal. *)
Example store_down_forty_attempts :
  let run := setup_qdrant_collection Memory.store_down "lyrics" 2 40 ∅ in
  result_of run = Raise OverflowError /\
  length (backoffs (trace_of run)) = 34%nat /\
  last (backoffs (trace_of run)) = Some (2 ^ 33) /\
  count is_create (trace_of run) = 35%nat.
Proof. vm_compute. repeat split. Qed.

Example store_down_backoffs :
  backoffs (trace_of (setup_qdrant_collection Memory.store_down "lyrics"
                        2 4 ∅)) = [1; 2; 4].
Proof. vm_compute. reflexivity. Qed.
